(** * Amazon pitch automation: the field normalizer, the validators and the
      parse / review flow of [app.py], embedded in Rocq.

    Python values are modelled as the program uses them:
    - a [str] is the list of its Unicode code points ([pystr]);
    - a JSON field of a release record is [None] or a [str] ([pyval]);
    - the record itself is a [dict] keyed by field name ([gmap string pyval]),
      mutated in place by [apply_business_logic], so the normalizer is a
      computation in a state-and-exception monad over that dict;
    - the libraries the program calls (Unicode case mapping of non-ASCII
      text, the pycountry catalog, the text-generation service, the JSON
      codec, the form widgets) are interfaces, given as type classes. *)

From Stdlib Require Import NArith List Bool Ascii String Lia Btauto.
From stdpp Require Import base option list gmap strings.

Local Open Scope N_scope.
Local Open Scope list_scope.

(** ** Python strings *)

Module PyStr.

(** A Python [str]: the sequence of its code points. *)
Abbreviation pystr := (list N).

(** UTF-8 decoding of a source literal, so that the literals of [app.py] can
    be written as they appear there. *)
Fixpoint utf8_decode (bs : list N) : pystr :=
  match bs with
  | [] => []
  | b :: rest =>
    if b <? 128 then b :: utf8_decode rest
    else if b <? 224 then
      match rest with
      | b1 :: r => ((b mod 32) * 64 + b1 mod 64) :: utf8_decode r
      | [] => [b]
      end
    else if b <? 240 then
      match rest with
      | b1 :: b2 :: r =>
        ((b mod 16) * 4096 + (b1 mod 64) * 64 + b2 mod 64) :: utf8_decode r
      | _ => [b]
      end
    else
      match rest with
      | b1 :: b2 :: b3 :: r =>
        ((b mod 8) * 262144 + (b1 mod 64) * 4096 + (b2 mod 64) * 64 + b3 mod 64)
          :: utf8_decode r
      | _ => [b]
      end
  end.

(** [u "text"] is the Python literal ["text"]. *)
Definition u (s : string) : pystr :=
  utf8_decode (map N_of_ascii (list_ascii_of_string s)).

(** The empty string literal. *)
Definition EMPTY : pystr := [].

Definition NL : N := 10.
Definition DQUOTE : N := 34.
Definition HYPHEN : N := 45.

(** [len(s) == 0], that is [not s] for a [str]. *)
Definition is_empty (s : pystr) : bool :=
  match s with [] => true | _ => false end.

Definition pystr_eqb (a b : pystr) : bool := bool_decide (a = b).

(** [str.isspace] for one character: the code points CPython's
    [_PyUnicode_IsWhitespace] accepts. *)
Definition is_space (c : N) : bool :=
  ((9 <=? c) && (c <=? 13)) || ((28 <=? c) && (c <=? 32))
  || (c =? 133) || (c =? 160) || (c =? 5760)
  || ((8192 <=? c) && (c <=? 8202))
  || (c =? 8232) || (c =? 8233) || (c =? 8239) || (c =? 8287) || (c =? 12288).

Fixpoint lstrip (s : pystr) : pystr :=
  match s with
  | c :: s' => if is_space c then lstrip s' else s
  | [] => []
  end.

Definition rstrip (s : pystr) : pystr := rev (lstrip (rev s)).

(** [s.strip()] *)
Definition strip (s : pystr) : pystr := rstrip (lstrip s).

Definition is_ascii (c : N) : bool := c <? 128.

Definition ascii_lower (c : N) : N :=
  if (65 <=? c) && (c <=? 90) then c + 32 else c.

Definition ascii_upper (c : N) : N :=
  if (97 <=? c) && (c <=? 122) then c - 32 else c.

(** Case mapping of text with non-ASCII characters follows the Unicode
    tables of the Python runtime (it is context dependent and may change the
    length); it is an interface of the embedding. *)
Class Unicode := {
  unicode_lower : pystr -> pystr;
  unicode_upper : pystr -> pystr
}.

(** [s.lower()] *)
Definition lower `{Unicode} (s : pystr) : pystr :=
  if forallb is_ascii s then map ascii_lower s else unicode_lower s.

(** [s.upper()] *)
Definition upper `{Unicode} (s : pystr) : pystr :=
  if forallb is_ascii s then map ascii_upper s else unicode_upper s.

(** [s.startswith(p)] *)
Fixpoint startswith (p s : pystr) : bool :=
  match p, s with
  | [], _ => true
  | a :: p', b :: s' => (a =? b) && startswith p' s'
  | _ :: _, [] => false
  end.

(** [p in s]: [p] occurs in [s] as a substring. *)
Fixpoint contains (p s : pystr) : bool :=
  startswith p s ||
  match s with
  | [] => false
  | _ :: s' => contains p s'
  end.

(** [s.replace(c, e)] for a one-character [c] and the empty string [e]. *)
Definition remove_char (c : N) (s : pystr) : pystr :=
  filter (fun x => x ≠ c) s.

(** [re.sub(p, e, s)] for the empty replacement [e] and a literal pattern
    [p]: the non-overlapping occurrences of [p], found left to right, are
    deleted. [skip] counts the characters of the current occurrence that
    are still to be dropped. *)
Fixpoint re_sub_delete_from (p : pystr) (skip : nat) (s : pystr) : pystr :=
  match s with
  | [] => []
  | c :: s' =>
    match skip with
    | S k => re_sub_delete_from p k s'
    | O =>
      if is_empty p then c :: re_sub_delete_from p O s'
      else if startswith p s then re_sub_delete_from p (pred (length p)) s'
      else c :: re_sub_delete_from p O s'
    end
  end.

Definition re_sub_delete (p s : pystr) : pystr := re_sub_delete_from p O s.

(** The lines of a multi-line literal, joined by newlines. *)
Fixpoint unlines (ls : list pystr) : pystr :=
  match ls with
  | [] => []
  | [l] => l
  | l :: ls' => l ++ NL :: unlines ls'
  end.

End PyStr.
Export PyStr.

(** ** The regular expression of the ISRC check *)

Module Regex.

(** The fragment of Python's [re] syntax that [app.py] uses. *)
Inductive item :=
  | Bol                                      (* ^ *)
  | Eol                                      (* $ *)
  | Class (ranges : list (N * N)) (n : nat). (* [a-bc-d]{n} *)

Definition in_ranges (rs : list (N * N)) (c : N) : bool :=
  existsb (fun r => (fst r <=? c) && (c <=? snd r)) rs.

Fixpoint take_class (rs : list (N * N)) (n : nat) (s : pystr) : option pystr :=
  match n with
  | O => Some s
  | S n' =>
    match s with
    | c :: s' => if in_ranges rs c then take_class rs n' s' else None
    | [] => None
    end
  end.

(** Matching at offset [pos] of the subject, whose remaining text is [s].
    Without [re.MULTILINE], [^] matches at offset 0 only and [$] matches at
    the end of the subject and just before a newline that ends it. *)
Fixpoint match_here (items : list item) (pos : nat) (s : pystr) : bool :=
  match items with
  | [] => true
  | Bol :: items' => Nat.eqb pos 0 && match_here items' pos s
  | Eol :: items' =>
    (is_empty s || pystr_eqb s [NL]) && match_here items' pos s
  | Class rs n :: items' =>
    match take_class rs n s with
    | Some s' => match_here items' (pos + n)%nat s'
    | None => false
    end
  end.

(** [bool(re.match(pattern, s))] *)
Definition re_match (pattern : list item) (s : pystr) : bool :=
  match_here pattern 0 s.

End Regex.

(** ** Helper functions of [app.py] *)

(** [clean_json_response(response_text)] *)
Definition clean_json_response (response_text : pystr) : pystr :=
  let text := re_sub_delete (u "```json") response_text in
  let text := re_sub_delete (u "```") text in
  strip text.

Definition A_Z : N * N := (65, 90).
Definition D0_9 : N * N := (48, 57).

(** [r"^[A-Z]{2}[A-Z0-9]{3}[0-9]{7}$"] *)
Definition ISRC_PATTERN : list Regex.item :=
  [Regex.Bol; Regex.Class [A_Z] 2; Regex.Class [A_Z; D0_9] 3;
   Regex.Class [D0_9] 7; Regex.Eol].

(** The ISRC format in the words of the specification: exactly 12
    characters, 2 alphabetic, then 3 alphanumeric, then 7 numeric. *)
Definition is_alpha (c : N) : bool := (65 <=? c) && (c <=? 90).
Definition is_digit (c : N) : bool := (48 <=? c) && (c <=? 57).

Definition isrc_format (s : pystr) : bool :=
  Nat.eqb (length s) 12
  && forallb is_alpha (take 2 s)
  && forallb (fun c => is_alpha c || is_digit c) (take 3 (drop 2 s))
  && forallb is_digit (drop 5 s).

(** Deleting the occurrences of [p] in a text, in words: a text without an
    occurrence is left as it is; otherwise the text before the first
    occurrence is kept, the occurrence goes, and the deletion goes on in the
    text after it. The first occurrence is the one before which none
    starts: none lies in the text before it followed by [p] without its last
    character. *)
Inductive deletes (p : pystr) : pystr -> pystr -> Prop :=
  | deletes_none (t : pystr) :
      contains p t = false -> deletes p t t
  | deletes_first (t rest r : pystr) :
      contains p (t ++ removelast p) = false ->
      deletes p rest r ->
      deletes p (t ++ p ++ rest) (t ++ r).

(** ** Values, records and exceptions *)

(** A field of a release record as decoded from JSON: [None] or a [str]. *)
Inductive pyval :=
  | PNone
  | PStr (s : pystr).

Global Instance pyval_eq_dec : EqDecision pyval.
Proof. solve_decision. Defined.

(** Truth value of an object, as [if x:] and [not x] test it. *)
Definition truthy (v : pyval) : bool :=
  match v with
  | PNone => false
  | PStr s => negb (is_empty s)
  end.

(** [str(v)], as an f-string formats a value. *)
Definition py_str (v : pyval) : pystr :=
  match v with
  | PNone => u "None"
  | PStr s => s
  end.

(** An exception: its class name and its message, [str(e)]. *)
Record exn := { exn_class : string; exn_msg : pystr }.

Definition AttributeError (attr : string) : exn :=
  {| exn_class := "AttributeError";
     exn_msg := u "'NoneType' object has no attribute '" ++ u attr ++ u "'" |}.

(** How a call ends: it returns a value or raises. *)
Inductive outcome (A : Type) :=
  | Return (a : A)
  | Raise (e : exn).
Arguments Return {A} a.
Arguments Raise {A} e.

(** ** Computations over the record being normalized

    [apply_business_logic] receives a [dict] and updates it in place: a
    computation takes the dict and yields how it ended together with the
    dict as it stands then (also when an exception is raised half-way). *)

Definition M (A : Type) : Type :=
  gmap string pyval -> outcome A * gmap string pyval.

Global Instance M_ret : MRet M := fun A a d => (Return a, d).

Global Instance M_bind : MBind M := fun A B f c d =>
  match c d with
  | (Return a, d') => f a d'
  | (Raise e, d') => (Raise e, d')
  end.

Definition raise {A} (e : exn) : M A := fun d => (Raise e, d).

(** [data.get(key, dflt)] *)
Definition dict_get (key : string) (dflt : pyval) : M pyval :=
  fun d => (Return (default dflt (d !! key)), d).

(** [data[key] = v] *)
Definition dict_set (key : string) (v : pyval) : M unit :=
  fun d => (Return tt, <[key := v]> d).

(** [v.strip()]: an attribute error when [v] is [None]. *)
Definition str_strip (v : pyval) : M pystr :=
  match v with
  | PStr s => mret (strip s)
  | PNone => raise (AttributeError "strip")
  end.

(** ** The country catalog (pycountry) *)

Record country := { alpha_2 : pystr; name : pystr }.

(** The two queries of [pycountry.countries] the program uses.
    [countries_get code] is [pycountry.countries.get(alpha_2=code)], which
    yields a country or [None]; [search_fuzzy text] yields the matches, best
    first, and raises [LookupError] when there is none. *)
Class PyCountry := {
  countries_get : pystr -> outcome (option country);
  search_fuzzy : pystr -> outcome (list country)
}.

Section Normalizer.
Context `{Unicode} `{PyCountry}.

(** [validate_isrc(isrc)] *)
Definition validate_isrc (isrc : pyval) : bool :=
  match isrc with
  | PNone => false
  | PStr s =>
    if is_empty s then false
    else
      let clean_isrc := upper (remove_char HYPHEN s) in
      Regex.re_match ISRC_PATTERN clean_isrc
  end.

(** [get_country_name(code)]: the full name, or [None] when the code is
    unknown or anything in the lookup raises. *)
Definition get_country_name (code : pyval) : pyval :=
  match code with
  | PNone => PNone                     (* [None.upper()] raises: caught *)
  | PStr s =>
    match countries_get (upper s) with
    | Return (Some c) => PStr (name c)
    | Return None => PNone
    | Raise _ => PNone
    end
  end.

(** [genre_map.get(genre, genre)] *)
Definition genre_map : list (pystr * pystr) :=
  [ (u "Popular", u "Regional Mexican");
    (u "trapmambo", u "Urbano");
    (u "Electrónica", u "Electronic");
    (u "Cumbia", u "Tropical") ].

Fixpoint assoc (k : pystr) (m : list (pystr * pystr)) : option pystr :=
  match m with
  | [] => None
  | (k', v) :: m' => if pystr_eqb k k' then Some v else assoc k m'
  end.

Definition genre_map_get (genre dflt : pyval) : pyval :=
  match genre with
  | PStr g => match assoc g genre_map with Some v => PStr v | None => dflt end
  | PNone => dflt
  end.

(** The four blocks of [apply_business_logic(data)], named after the
    comments that head them in the source. *)

(** Defaults *)
Definition set_defaults : M unit :=
  dict_set "label" (PStr (u "ONErpm"));;
  dict_set "latin_audience" (PStr (u "Yes")).

(** Genre Mapping *)
Definition map_genre : M unit :=
  genre ← dict_get "genre" (PStr EMPTY);
  dict_set "genre" (genre_map_get genre genre).

(** Release Type Mapping *)
Definition map_release_type : M unit :=
  rt ← dict_get "release_type" (PStr EMPTY);
  rtype ← str_strip rt;
  let rtype_lower := lower rtype in
  if contains (u "single + video") rtype_lower then
    dict_set "release_type" (PStr (u "New Single"))
  else if contains (u "album + video") rtype_lower then
    dict_set "release_type" (PStr (u "New Album"))
  else if contains (u "ep + video") rtype_lower then
    dict_set "release_type" (PStr (u "New EP"))
  else if is_empty rtype then
    dict_set "release_type" (PStr (u "New Single"))
  else mret tt.

(** Country Validation/Fix *)
Definition fix_country : M unit :=
  cc ← dict_get "country_code" (PStr EMPTY);
  match cc with
  | PNone => mret tt                                   (* [None] is falsy *)
  | PStr s =>
    if is_empty s then mret tt
    else if Nat.eqb (length s) 2 then
      let full_name := get_country_name cc in
      if truthy full_name then dict_set "country_name" full_name
      else dict_set "country_name" (PStr EMPTY)        (* Invalid code *)
    else
      match search_fuzzy s with
      | Return (c0 :: _) =>
        dict_set "country_name" (PStr (name c0));;
        dict_set "country_code" (PStr (alpha_2 c0))
      | Return [] => mret tt
      | Raise _ => dict_set "country_name" (PStr EMPTY)
      end
  end.

(** [apply_business_logic(data)]; the dict the computation ends with is the
    value the function returns. *)
Definition apply_business_logic : M unit :=
  set_defaults;;
  map_genre;;
  map_release_type;;
  fix_country.

End Normalizer.

Section Catalog.
Context `{Unicode} `{PyCountry}.

(** A catalog whose fuzzy search answers with countries that its code lookup
    knows under their two-letter code. *)
Definition consistent_catalog : Prop :=
  forall query c0 rest,
    search_fuzzy query = Return (c0 :: rest) ->
    length (alpha_2 c0) = 2%nat /\
    exists c, countries_get (upper (alpha_2 c0)) = Return (Some c)
              /\ name c = name c0.

End Catalog.

(** ** The collaborators of the extraction and review flow *)

(** The text-generation service and the JSON codec.
    [generate_content prompt] is the text of the model's response, or the
    exception the call raised; [json_loads text] decodes a release record
    (an object whose fields are strings or null) or raises;
    [json_dumps v] is the JSON text of a value. *)
Class Collaborators := {
  GOOGLE_API_KEY : pyval;
  generate_content : pystr -> outcome pystr;
  json_loads : pystr -> outcome (gmap string pyval);
  json_dumps : pyval -> pystr
}.

(** The form framework: whether the submit button reports a submission,
    given the [disabled] flag it is rendered with and whether the user
    pressed it. *)
Class FormFramework := {
  form_submit_button : bool -> bool -> bool
}.

(** What the page shows or does during one run of the script. *)
Inductive ui_event :=
  | StWarning (msg : pystr)
  | StError (msg : pystr)
  | StSuccess (msg : pystr)
  | StToast (msg : pystr)
  | StSubmitButton (label : pystr) (disabled : bool)
  | StCode (text : pystr)
  | OpenNewTab (url : pystr).

(** [st.session_state]: the record under review and the generated script. *)
Record session := {
  parsed_data : option (gmap string pyval);
  generated_script : option pystr
}.

(** What the user did before one run of the script: the pasted text, the
    buttons pressed, and the text typed into the widgets (by label). *)
Record user_action := {
  raw_text : pystr;
  parse_pressed : bool;
  typed : string -> option pystr;
  submit_pressed : bool
}.

(** The values of the review form in one run. *)
Record review_form := {
  f_artist : pyval;
  f_title : pyval;
  f_upc : pyval;
  f_isrc : pyval;
  f_label : pyval;
  f_release_date : pyval;
  f_country_input : pyval;
  f_description : pyval;
  f_genre : pyval;
  f_rtype : pyval;
  f_latin_audience : pyval
}.

Global Instance outcome_ret : MRet outcome := fun A a => Return a.

Global Instance outcome_bind : MBind outcome := fun A B f o =>
  match o with
  | Return a => f a
  | Raise e => Raise e
  end.

(** Running a computation on a dict: the (same, updated) dict is the
    result, as in [data = apply_business_logic(data)]. *)
Definition call_on (c : M unit) (data : gmap string pyval)
  : outcome (gmap string pyval) :=
  match c data with
  | (Return _, data') => Return data'
  | (Raise e, _) => Raise e
  end.

Section Flow.
Context `{Unicode} `{PyCountry} `{Collaborators} `{FormFramework}.

(** The instruction sent to the model (the f-string of [parse_release_data]). *)
Definition prompt (text : pystr) : pystr :=
  unlines
    [ EMPTY;
      u "    You are an expert music data assistant. Your task is to extract structured music release data from the following unstructured text.";
      u "    ";
      u "    Target Fields:";
      u "    1. Primary Artist";
      u "    2. Title (Release Title)";
      u "    3. UPC (Barcode)";
      u "    4. ISRC (International Standard Recording Code)";
      u "    5. Release Date (YYYY-MM-DD format)";
      u "    6. Country Code (ISO 3166-1 alpha-2 code, e.g., US, GB, CO. If a full name is given, convert it).";
      u "    7. Description (Release description/pitch).";
      u "    8. Genre (Map 'Popular'->'Regional Mexican', 'trapmambo'->'Urbano', 'Electrónica'->'Electronic', 'Cumbia'->'Tropical'. Default to original if no match).";
      u "    9. Release Type (Map 'Single + Video'->'New Single', 'Album + Video'->'New Album', 'EP + Video'->'New EP'. Default to 'New Single' if ambiguous).";
      EMPTY;
      u "    Rules:";
      u "    - If ISRC is not found or ambiguous, return null (None). DO NOT GUESS.";
      u "    - If Country is not found, return null.";
      u "    - Output MUST be valid JSON.";
      u "    ";
      u "    Unstructured Text:";
      u "    " ++ text;
      u "    ";
      u "    JSON Output:";
      u "    " ].

(** [parse_release_data(text)], with the normalizer it applies as a
    parameter; the result is the returned record or [None], and what was
    shown. *)
Definition parse_release_data_with (normalize : M unit) (text : pystr)
  : option (gmap string pyval) * list ui_event :=
  let attempt : outcome (gmap string pyval) :=
    response_text ← generate_content (prompt text);
    let json_text := clean_json_response response_text in
    data ← json_loads json_text;
    call_on normalize data in
  match attempt with
  | Return data => (Some data, [])
  | Raise e => (None, [StError (u "Error parsing data: " ++ exn_msg e)])
  end.

Definition parse_release_data : pystr -> option (gmap string pyval) * list ui_event :=
  parse_release_data_with apply_business_logic.

(** The handler of the Parse Data button. *)
Definition parse_button (raw : pystr) (st : session) : session * list ui_event :=
  if is_empty raw then
    (st, [StWarning (u "Please paste some text first.")])
  else
    match parse_release_data raw with
    | (Some parsed, shown) =>
      if bool_decide (parsed = ∅) then (st, shown)
      else ({| parsed_data := Some parsed;
               generated_script := generated_script st |},
            shown ++ [StSuccess (u "Parsing complete!")])
    | (None, shown) => (st, shown)
    end.

(** [st.text_input(label, value=value)]: what the user typed into the
    widget, or its initial value. *)
Definition text_input (a : user_action) (label : string) (value : pyval) : pyval :=
  match typed a label with
  | Some s => PStr s
  | None => value
  end.

Definition field (d : gmap string pyval) (key : string) (dflt : pyval) : pyval :=
  default dflt (d !! key).

(** The widgets of the review form, in the order the script creates them. *)
Definition read_form (a : user_action) (d : gmap string pyval) : review_form :=
  let isrc_val := field d "isrc" (PStr EMPTY) in
  let isrc_val := match isrc_val with PNone => PStr EMPTY | _ => isrc_val end in
  let c_code := field d "country_code" (PStr EMPTY) in
  let c_name := field d "country_name" (PStr EMPTY) in
  let country_display :=
    if truthy c_name
    then PStr (py_str c_name ++ u " (" ++ py_str c_code ++ u ")")
    else c_code in
  {| f_artist := text_input a "Primary Artist" (field d "primary_artist" (PStr EMPTY));
     f_title := text_input a "Release Title" (field d "title" (PStr EMPTY));
     f_upc := text_input a "UPC" (field d "upc" (PStr EMPTY));
     f_isrc := text_input a "ISRC" isrc_val;
     f_label := text_input a "Label" (field d "label" (PStr (u "ONErpm")));
     f_release_date :=
       text_input a "Release Date (YYYY-MM-DD)" (field d "release_date" (PStr EMPTY));
     f_country_input := text_input a "Country (Name or Code)" country_display;
     f_description := text_input a "Description" (field d "description" (PStr EMPTY));
     f_genre := text_input a "Genre" (field d "genre" (PStr EMPTY));
     f_rtype := text_input a "Release Type" (field d "release_type" (PStr EMPTY));
     f_latin_audience :=
       text_input a "Latin Audience" (field d "latin_audience" (PStr (u "Yes"))) |}.

(** The ISRC check of the review form: the flag and the messages shown. *)
Definition check_isrc (isrc : pyval) : bool * list ui_event :=
  if negb (truthy isrc) then
    (false, [StError (u "ISRC is MISSING. Please enter it manually.")])
  else if negb (validate_isrc isrc) then
    (false, [StError (u "Invalid ISRC format. Must be 12 alphanumeric characters.")])
  else (true, []).

(** [st.session_state.parsed_data.update({...})] *)
Definition update_parsed_data (f : review_form) (d : gmap string pyval)
  : gmap string pyval :=
  <["latin_audience" := f_latin_audience f]>
  (<["release_type" := f_rtype f]>
  (<["genre" := f_genre f]>
  (<["description" := f_description f]>
  (<["country_code" := f_country_input f]>
  (<["release_date" := f_release_date f]>
  (<["label" := f_label f]>
  (<["isrc" := f_isrc f]>
  (<["upc" := f_upc f]>
  (<["title" := f_title f]>
  (<["primary_artist" := f_artist f]> d)))))))))).

(** The console script (the f-string of the submit handler). *)
Definition js_script (f : review_form) : pystr :=
  unlines
    [ EMPTY;
      u "            (function() {";
      u "                function setVal(selector, value) {";
      u "                    let el = document.querySelector(selector);";
      u "                    if (el) {";
      u "                        el.value = value;";
      u "                        el.dispatchEvent(new Event('input', { bubbles: true }));";
      u "                        el.dispatchEvent(new Event('change', { bubbles: true }));";
      u "                        console.log('Set ' + selector + ' to ' + value);";
      u "                    } else {";
      u "                        console.warn('Could not find element for ' + selector);";
      u "                    }";
      u "                }";
      EMPTY;
      u "                // Mappings based on best guesses for Salesforce/Webforms";
      u "                setVal('input[name=" ++ [DQUOTE] ++ u "Primary_Artist" ++ [DQUOTE] ++ u "]', " ++ json_dumps (f_artist f) ++ u ");";
      u "                setVal('input[name=" ++ [DQUOTE] ++ u "Title" ++ [DQUOTE] ++ u "]', " ++ json_dumps (f_title f) ++ u ");";
      u "                setVal('input[name=" ++ [DQUOTE] ++ u "UPC" ++ [DQUOTE] ++ u "]', " ++ json_dumps (f_upc f) ++ u ");";
      u "                setVal('input[name=" ++ [DQUOTE] ++ u "ISRC" ++ [DQUOTE] ++ u "]', " ++ json_dumps (f_isrc f) ++ u ");";
      u "                setVal('input[name=" ++ [DQUOTE] ++ u "Release_Date" ++ [DQUOTE] ++ u "]', " ++ json_dumps (f_release_date f) ++ u ");";
      u "                setVal('textarea[name=" ++ [DQUOTE] ++ u "Description" ++ [DQUOTE] ++ u "]', " ++ json_dumps (f_description f) ++ u ");";
      u "                setVal('input[name=" ++ [DQUOTE] ++ u "Label" ++ [DQUOTE] ++ u "]', " ++ json_dumps (f_label f) ++ u ");";
      u "                ";
      u "                // Specific handling for Country might be needed if it's a dropdown";
      u "                // For now assuming text input or autocomplete";
      u "                setVal('input[name=" ++ [DQUOTE] ++ u "Territory" ++ [DQUOTE] ++ u "]', " ++ json_dumps (f_country_input f) ++ u ");";
      u "                ";
      u "                if (confirm(" ++ [DQUOTE] ++ u "Data filled. Do you want to submit the form now?" ++ [DQUOTE] ++ u ")) {";
      u "                    let submitBtn = document.querySelector('button[type=" ++ [DQUOTE] ++ u "submit" ++ [DQUOTE] ++ u "], input[type=" ++ [DQUOTE] ++ u "submit" ++ [DQUOTE] ++ u "]');";
      u "                    if (submitBtn) {";
      u "                        submitBtn.click();";
      u "                    } else {";
      u "                        alert(" ++ [DQUOTE] ++ u "Could not find a submit button. Please submit manually." ++ [DQUOTE] ++ u ");";
      u "                    }";
      u "                }";
      u "            })();";
      u "            " ].

Definition PORTAL_URL : pystr :=
  u "https://labelportal.amazonmusic.com/s/project-flow-frontline".

(** The review section of one run. *)
Definition review_section (a : user_action) (st : session)
  : session * list ui_event :=
  match parsed_data st with
  | None => (st, [])
  | Some d =>
    if bool_decide (d = ∅) then (st, [])
    else
      let f := read_form a d in
      let '(isrc_valid, shown) := check_isrc (f_isrc f) in
      let disabled := negb isrc_valid in
      let button := StSubmitButton (u "Generate Script") disabled in
      let submitted := form_submit_button disabled (submit_pressed a) in
      if submitted then
        ({| parsed_data := Some (update_parsed_data f d);
            generated_script := Some (js_script f) |},
         shown ++ [button; OpenNewTab PORTAL_URL;
                   StToast (u "Amazon Portal opened in a new tab!")])
      else (st, shown ++ [button])
  end.

(** The output section of one run. *)
Definition output_section (st : session) : list ui_event :=
  match generated_script st with
  | Some script => [StCode script]
  | None => []
  end.

(** One run of the script, top to bottom. *)
Definition script_run (a : user_action) (st : session) : session * list ui_event :=
  if negb (truthy GOOGLE_API_KEY) then
    (st, [StError (u "Google API Key not found. Please set it in the .env file.")])
  else
    let st0 :=
      match parsed_data st with
      | Some _ => st
      | None => {| parsed_data := Some ∅; generated_script := generated_script st |}
      end in
    let '(st1, shown1) :=
      if parse_pressed a then parse_button (raw_text a) st0 else (st0, []) in
    let '(st2, shown2) := review_section a st1 in
    (st2, shown1 ++ shown2 ++ output_section st2).

(** The sessions the flow can be in: the one a browser session starts
    with, and every session a run of the script leaves. *)
Inductive reachable : session -> Prop :=
  | reachable_fresh :
      reachable {| parsed_data := None; generated_script := None |}
  | reachable_run (a : user_action) (st : session) :
      reachable st -> reachable (script_run a st).1.


End Flow.

(** The four fields the normalizer always fills in. *)
Definition has_normalized_fields (d : gmap string pyval) : Prop :=
  is_Some (d !! "label") /\ is_Some (d !! "latin_audience") /\
  is_Some (d !! "genre") /\ is_Some (d !! "release_type").

(** ** A concrete environment

    A small instance of every interface, on which statements are evaluated:
    an excerpt of the ISO 3166 catalog, a model that answers with a fenced
    JSON text, and a form whose disabled submit button cannot be pressed. *)

Module Sample.

Definition unicode : Unicode :=
  {| unicode_lower := fun s => s; unicode_upper := fun s => s |}.

Definition catalog : list country :=
  [ {| alpha_2 := u "US"; name := u "United States" |};
    {| alpha_2 := u "GB"; name := u "United Kingdom" |};
    {| alpha_2 := u "CO"; name := u "Colombia" |};
    {| alpha_2 := u "MX"; name := u "Mexico" |};
    {| alpha_2 := u "BR"; name := u "Brazil" |} ].

Definition LookupError (query : pystr) : exn :=
  {| exn_class := "LookupError"; exn_msg := query |}.

Definition pycountry : PyCountry :=
  {| countries_get := fun code =>
       Return (find (fun c => pystr_eqb (alpha_2 c) code) catalog);
     search_fuzzy := fun query =>
       match filter (fun c => @lower unicode (name c) = @lower unicode query) catalog with
       | [] => Raise (LookupError query)
       | found => Return found
       end |}.

Definition record_text : pystr := u "```json" ++ [NL] ++ u "{}" ++ [NL] ++ u "```".

Definition collaborators : Collaborators :=
  {| GOOGLE_API_KEY := PStr (u "key");
     generate_content := fun prompt =>
       if contains (u "quota") prompt
       then Raise {| exn_class := "ResourceExhausted"; exn_msg := u "429 quota" |}
       else if contains (u "Remix") prompt then Return (u "Sorry, no data.")
       else Return record_text;
     json_loads := fun text =>
       if pystr_eqb text (u "{}") then Return ∅
       else Raise {| exn_class := "JSONDecodeError";
                     exn_msg := u "Expecting value: line 1 column 1 (char 0)" |};
     json_dumps := fun v =>
       match v with
       | PNone => u "null"
       | PStr s => [DQUOTE] ++ s ++ [DQUOTE]
       end |}.

Definition framework : FormFramework :=
  {| form_submit_button := fun disabled pressed => pressed && negb disabled |}.

Definition fresh : session := {| parsed_data := None; generated_script := None |}.

(** A record with fields the normalizer rewrites. *)
Definition cumbia_record : gmap string pyval :=
  <["genre" := PStr (u "Cumbia")]>
  (<["release_type" := PStr (u "EP + Video")]>
  (<["label" := PStr (u "X")]>
  (<["latin_audience" := PStr (u "No")]> ∅))).

(** The user pastes a text and presses Parse Data. *)
Definition paste (text : pystr) : user_action :=
  {| raw_text := text; parse_pressed := true;
     typed := fun _ => None; submit_pressed := false |}.

(** The user types an ISRC into the review form and presses Generate
    Script. *)
Definition submit_isrc (isrc : pystr) : user_action :=
  {| raw_text := EMPTY; parse_pressed := false;
     typed := fun label => if String.eqb label "ISRC" then Some isrc else None;
     submit_pressed := true |}.

End Sample.

(** * Properties *)

(** ** Strings *)

Example u_accent : u "Electrónica" = u "Electr" ++ [243] ++ u "nica".
Proof. reflexivity. Qed.

Example strip_remix : strip (u "  Remix  ") = u "Remix".
Proof. reflexivity. Qed.

(** *** Stripping *)

Section StringFacts.

#[local] Arguments N.eqb : simpl never.

Lemma lstrip_suffix (s : pystr) : exists w, s = w ++ lstrip s.
Proof.
  induction s as [|c s [w IH]]; [by exists []|]. simpl.
  destruct (is_space c); [|by exists []].
  exists (c :: w). simpl. by f_equal.
Qed.

Lemma lstrip_shape (s : pystr) :
  lstrip s = [] \/ exists c a, lstrip s = c :: a /\ is_space c = false.
Proof.
  induction s as [|c s IH]; [by left|]. simpl.
  destruct (is_space c) eqn:E; [done|]. right. by exists c, s.
Qed.

Lemma lstrip_idem (s : pystr) : lstrip (lstrip s) = lstrip s.
Proof.
  destruct (lstrip_shape s) as [->|(c & a & -> & E)]; [done|].
  simpl. by rewrite E.
Qed.

Lemma lstrip_app_nonspace (x : pystr) (c : N) :
  is_space c = false -> lstrip (x ++ [c]) = lstrip x ++ [c].
Proof.
  intros E. induction x as [|y x IH]; simpl; [by rewrite E|].
  by destruct (is_space y).
Qed.

Lemma rstrip_prefix (s : pystr) : exists w, s = rstrip s ++ w.
Proof.
  unfold rstrip. destruct (lstrip_suffix (rev s)) as [w Hw].
  exists (rev w). rewrite <- rev_app_distr, <- Hw. by rewrite rev_involutive.
Qed.

Lemma rstrip_idem (s : pystr) : rstrip (rstrip s) = rstrip s.
Proof. unfold rstrip. by rewrite rev_involutive, lstrip_idem. Qed.

Lemma rstrip_cons_nonspace (c : N) (a : pystr) :
  is_space c = false -> rstrip (c :: a) = c :: rstrip a.
Proof.
  intros E. unfold rstrip. simpl rev at 2.
  rewrite lstrip_app_nonspace by done. by rewrite rev_app_distr.
Qed.

(** Stripping a stripped text changes nothing: it has no blank at either
    end. *)
Lemma strip_idem (s : pystr) : strip (strip s) = strip s.
Proof.
  unfold strip. destruct (lstrip_shape s) as [->|(c & a & -> & E)]; [done|].
  rewrite rstrip_cons_nonspace by done. simpl lstrip. rewrite E.
  rewrite rstrip_cons_nonspace by done. by rewrite rstrip_idem.
Qed.

Lemma strip_sublist (s : pystr) : strip s `sublist_of` s.
Proof.
  unfold strip. destruct (lstrip_suffix s) as [w Hw].
  destruct (rstrip_prefix (lstrip s)) as [w' Hw'].
  rewrite Hw at 2. apply sublist_inserts_l.
  rewrite Hw' at 2. by apply sublist_inserts_r.
Qed.

(** *** Substrings *)

Lemma startswith_app (p s t : pystr) :
  startswith p s = true -> startswith p (s ++ t) = true.
Proof.
  revert s. induction p as [|a p IH]; intros [|b s]; simpl; try done.
  intros [-> Hp]%andb_true_iff. by rewrite IH.
Qed.

Lemma contains_app_l (p a b : pystr) :
  contains p a = true -> contains p (a ++ b) = true.
Proof.
  induction a as [|c a IH]; simpl.
  - rewrite orb_false_r. intros Hp. apply (startswith_app _ _ b) in Hp.
    simpl in Hp. destruct b; simpl; by rewrite Hp.
  - intros [Hp|Hp]%orb_true_iff.
    + apply (startswith_app _ _ b) in Hp. simpl in Hp. by rewrite Hp.
    + rewrite IH by done. apply orb_true_r.
Qed.

Lemma contains_app_r (p a b : pystr) :
  contains p b = true -> contains p (a ++ b) = true.
Proof.
  intros Hp. induction a as [|c a IH]; simpl; [done|].
  rewrite IH. apply orb_true_r.
Qed.

(** A text without an occurrence of [p] has none after stripping. *)
Lemma contains_strip (p s : pystr) :
  contains p s = false -> contains p (strip s) = false.
Proof.
  intros Hp. destruct (contains p (strip s)) eqn:E; [|done].
  unfold strip in E. destruct (lstrip_suffix s) as [w Hw].
  destruct (rstrip_prefix (lstrip s)) as [w' Hw'].
  apply (contains_app_l _ _ w') in E. rewrite <- Hw' in E.
  apply (contains_app_r _ w) in E. rewrite <- Hw in E. congruence.
Qed.

Lemma startswith_shorter (p q s : pystr) :
  startswith (p ++ q) s = true -> startswith p s = true.
Proof.
  revert s. induction p as [|a p IH]; intros [|b s]; simpl; try done.
  intros [-> Hp]%andb_true_iff. by rewrite (IH s).
Qed.

(** Where a pattern does not occur, none of its extensions does. *)
Lemma contains_longer (p q s : pystr) :
  contains p s = false -> contains (p ++ q) s = false.
Proof.
  induction s as [|c s IH]; simpl.
  - rewrite !orb_false_r. intros Hp.
    destruct (startswith (p ++ q) []) eqn:E; [|done].
    apply startswith_shorter in E. congruence.
  - intros [Hp Hs]%orb_false_iff. rewrite IH by done. rewrite orb_false_r.
    destruct (startswith (p ++ q) (c :: s)) eqn:E; [|done].
    apply startswith_shorter in E. congruence.
Qed.

(** *** Deleting the occurrences of a pattern *)

Lemma re_sub_delete_from_sublist (p : pystr) (k : nat) (s : pystr) :
  re_sub_delete_from p k s `sublist_of` s.
Proof.
  revert k. induction s as [|c s IH]; intros k; simpl; [constructor|].
  destruct k as [|k]; [|by constructor].
  destruct (is_empty p); [by constructor|].
  destruct (startswith p (c :: s)); by constructor.
Qed.

Lemma re_sub_delete_absent (p s : pystr) :
  contains p s = false -> re_sub_delete p s = s.
Proof.
  unfold re_sub_delete. induction s as [|c s IH]; simpl; [done|].
  intros [Hp Hs]%orb_false_iff. simpl in Hp. rewrite Hp.
  rewrite IH by done. by destruct (is_empty p).
Qed.

(** The fence: three backticks. *)
#[local] Abbreviation FENCE := [96; 96; 96].

Lemma fence_literal : u "```" = FENCE.
Proof. reflexivity. Qed.

Lemma fence_json_literal : u "```json" = FENCE ++ u "json".
Proof. reflexivity. Qed.

(** After an occurrence of the fence has been passed over, what is kept
    does not start with two backticks unless the text did. *)
Lemma delete_fence_head (s : pystr) :
  startswith [96; 96] s = false ->
  startswith [96; 96] (re_sub_delete_from FENCE 0 s) = false.
Proof.
  destruct s as [|x [|y s]]; [done| |].
  - simpl. destruct (96 =? x) eqn:Ex; simpl; rewrite ?Ex; done.
  - simpl. destruct (96 =? x) eqn:Ex; simpl.
    + destruct (96 =? y) eqn:Ey; simpl; [done|]. intros _.
      rewrite ?Ex, ?Ey; simpl; by rewrite ?Ex, ?Ey.
    + intros _. rewrite ?Ex; simpl; by rewrite ?Ex.
Qed.

(** No fence is left, wherever the fences were. *)
Lemma delete_fence_none_left (k : nat) (s : pystr) :
  contains FENCE (re_sub_delete_from FENCE k s) = false.
Proof.
  revert k. induction s as [|c s IH]; intros k; [done|].
  destruct k as [|k]; [|apply IH].
  change (re_sub_delete_from FENCE 0 (c :: s))
    with (if startswith FENCE (c :: s) then re_sub_delete_from FENCE 2 s
          else c :: re_sub_delete_from FENCE 0 s).
  destruct (startswith FENCE (c :: s)) eqn:E; [apply IH|].
  change (contains FENCE (c :: re_sub_delete_from FENCE 0 s))
    with ((96 =? c) && startswith [96; 96] (re_sub_delete_from FENCE 0 s)
          || contains FENCE (re_sub_delete_from FENCE 0 s)).
  rewrite IH, orb_false_r.
  change (startswith FENCE (c :: s))
    with ((96 =? c) && startswith [96; 96] s) in E.
  destruct (96 =? c); [|done]. simpl in E. by apply delete_fence_head.
Qed.

End StringFacts.

(** ** The ISRC check *)

Section IsrcFacts.
Context `{Unicode}.

#[local] Arguments N.leb : simpl never.

(** A character class as a test on the next [n] characters. *)
Lemma take_class_match (rs : list (N * N)) (n : nat) (s : pystr) (f : pystr -> bool) :
  match Regex.take_class rs n s with Some s' => f s' | None => false end =
  Nat.leb n (length s) && forallb (Regex.in_ranges rs) (take n s) && f (drop n s).
Proof.
  revert s. induction n as [|n IH]; intros [|c s]; simpl; try done.
  destruct (Regex.in_ranges rs c); simpl.
  - apply IH.
  - by rewrite andb_false_r.
Qed.

(** The pattern accepts the texts of the ISRC format and those texts
    followed by one newline. *)
Lemma isrc_pattern_matches (t : pystr) :
  Regex.re_match ISRC_PATTERN t =
  isrc_format t || (isrc_format (take 12 t) && pystr_eqb (drop 12 t) [NL]).
Proof.
  unfold Regex.re_match, ISRC_PATTERN. cbn [Regex.match_here].
  rewrite !take_class_match.
  unfold isrc_format, is_alpha, is_digit, A_Z, D0_9, pystr_eqb.
  do 13 (destruct t as [|? t]; [cbn; btauto|]).
  destruct t as [|? t]; cbn.
  - set (b := bool_decide _). btauto.
  - set (b := bool_decide _). btauto.
Qed.

(** What [validate_isrc] accepts. *)
Lemma validate_isrc_spec (s : pystr) :
  validate_isrc (PStr s) =
  negb (is_empty s) &&
  (let clean_isrc := upper (remove_char HYPHEN s) in
   isrc_format clean_isrc
   || (isrc_format (take 12 clean_isrc) && pystr_eqb (drop 12 clean_isrc) [NL])).
Proof.
  unfold validate_isrc. destruct s as [|c s]; [done|].
  cbn [is_empty negb andb]. apply isrc_pattern_matches.
Qed.

(** C4 (the code departs from it): a valid ISRC followed by a newline has
    13 characters after cleaning, yet [validate_isrc] accepts it, because [$]
    also matches just before a final newline. *)
Theorem validate_isrc_accepts_trailing_newline :
  validate_isrc (PStr (u "USRC17607839" ++ [NL])) = true.
Proof. reflexivity. Qed.

Example validate_isrc_none : validate_isrc PNone = false.
Proof. reflexivity. Qed.

Example validate_isrc_empty : validate_isrc (PStr EMPTY) = false.
Proof. reflexivity. Qed.

Example validate_isrc_lower_hyphens :
  validate_isrc (PStr (u "us-rc1-76-07839")) = true.
Proof. reflexivity. Qed.

Example validate_isrc_short : validate_isrc (PStr (u "USRC1760783")) = false.
Proof. reflexivity. Qed.

Example validate_isrc_long : validate_isrc (PStr (u "USRC176078390")) = false.
Proof. reflexivity. Qed.

End IsrcFacts.

(** ** Deleting occurrences *)

Section DeleteFacts.

#[local] Arguments N.eqb : simpl never.

Lemma startswith_self (p rest : pystr) : startswith p (p ++ rest) = true.
Proof. induction p as [|a p IH]; simpl; [done|]. by rewrite N.eqb_refl. Qed.

Lemma startswith_inv (p s : pystr) :
  startswith p s = true -> exists rest, s = p ++ rest.
Proof.
  revert s. induction p as [|a p IH]; intros s; [by exists s|].
  destruct s as [|b s]; simpl; [done|].
  intros [->%N.eqb_eq [rest ->]%IH]%andb_true_iff. by exists rest.
Qed.

(** Whether [p] starts a text shows in its first [length p] characters. *)
Lemma startswith_long (p x y : pystr) :
  (length p <= length x)%nat -> startswith p (x ++ y) = startswith p x.
Proof.
  revert x. induction p as [|a p IH]; intros [|b x]; simpl; try done; [lia|].
  intros Hlen. rewrite IH by lia. done.
Qed.

Lemma contains_short (p x : pystr) :
  (length x < length p)%nat -> contains p x = false.
Proof.
  induction x as [|c x IH]; simpl; intros Hlen.
  - destruct p; [simpl in Hlen; lia|done].
  - rewrite IH by lia. rewrite orb_false_r.
    destruct (startswith p (c :: x)) eqn:E; [|done].
    apply startswith_inv in E as [rest E]. apply (f_equal length) in E.
    rewrite length_app in E. simpl in *. lia.
Qed.

Lemma length_removelast (p : pystr) : length (removelast p) = pred (length p).
Proof. induction p as [|a [|b p] IH]; simpl in *; [done|done|]. by rewrite IH. Qed.

Lemma removelast_prefix (p : pystr) : p ≠ [] -> exists c, p = removelast p ++ [c].
Proof. intros Hp. exists (List.last p 0). by apply app_removelast_last. Qed.

(** Whether [p] starts in the text before an occurrence of [p] shows without
    the last character of that occurrence. *)
Lemma startswith_before (p t rest : pystr) (c : N) :
  p ≠ [] ->
  startswith p ((c :: t) ++ p ++ rest) = startswith p ((c :: t) ++ removelast p).
Proof.
  intros Hp. destruct (removelast_prefix p Hp) as [x Hx].
  assert ((c :: t) ++ p ++ rest = ((c :: t) ++ removelast p) ++ [x] ++ rest) as ->.
  { transitivity ((c :: t) ++ (removelast p ++ [x]) ++ rest); [by rewrite <- Hx|].
    by rewrite <- !app_assoc. }
  apply startswith_long.
  rewrite length_app, length_removelast. destruct p; [done|simpl; lia].
Qed.

(** The first occurrence of a pattern that occurs. *)
Lemma first_occurrence (p s : pystr) :
  p ≠ [] -> contains p s = true ->
  exists t rest, s = t ++ p ++ rest /\ contains p (t ++ removelast p) = false.
Proof.
  intros Hp. induction s as [|c s IH]; simpl.
  - rewrite orb_false_r. by destruct p.
  - destruct (startswith p (c :: s)) eqn:E.
    + intros _. apply startswith_inv in E as [rest ->].
      exists [], rest. split; [done|]. apply contains_short. simpl app.
      rewrite length_removelast. destruct p; [done|simpl; lia].
    + simpl. intros (t & rest & -> & Hnone)%IH.
      exists (c :: t), rest. split; [done|].
      change (contains p ((c :: t) ++ removelast p))
        with (startswith p ((c :: t) ++ removelast p)
              || contains p (t ++ removelast p)).
      rewrite Hnone, orb_false_r. by rewrite <- (startswith_before p t rest c).
Qed.

Lemma delete_skip (p x rest : pystr) :
  re_sub_delete_from p (length x) (x ++ rest) = re_sub_delete_from p 0 rest.
Proof. induction x as [|c x IH]; [done|]. simpl. apply IH. Qed.

(** The deletion up to and including the first occurrence. *)
Lemma re_sub_delete_first (p t rest : pystr) :
  p ≠ [] -> contains p (t ++ removelast p) = false ->
  re_sub_delete p (t ++ p ++ rest) = t ++ re_sub_delete p rest.
Proof.
  intros Hp. unfold re_sub_delete. induction t as [|c t IH]; intros Hnone.
  - destruct p as [|a p]; [done|]. simpl app.
    change (re_sub_delete_from (a :: p) 0 (a :: p ++ rest))
      with (if startswith (a :: p) (a :: p ++ rest)
            then re_sub_delete_from (a :: p) (length p) (p ++ rest)
            else a :: re_sub_delete_from (a :: p) 0 (p ++ rest)).
    assert (startswith (a :: p) (a :: p ++ rest) = true) as ->
      by apply (startswith_self (a :: p) rest).
    apply delete_skip.
  - change (contains p ((c :: t) ++ removelast p))
      with (startswith p ((c :: t) ++ removelast p)
            || contains p (t ++ removelast p)) in Hnone.
    apply orb_false_iff in Hnone as [Hstart Hnone].
    assert (startswith p (c :: t ++ p ++ rest) = false) as Hno.
    { rewrite <- Hstart. by apply (startswith_before p t rest c). }
    simpl app.
    change (re_sub_delete_from p 0 (c :: t ++ p ++ rest))
      with (if is_empty p then c :: re_sub_delete_from p 0 (t ++ p ++ rest)
            else if startswith p (c :: t ++ p ++ rest)
                 then re_sub_delete_from p (pred (length p)) (t ++ p ++ rest)
                 else c :: re_sub_delete_from p 0 (t ++ p ++ rest)).
    rewrite Hno. rewrite IH by done. by destruct (is_empty p).
Qed.

(** [re.sub] deletes the occurrences of the pattern. *)
Lemma re_sub_delete_deletes (p s : pystr) :
  p ≠ [] -> deletes p s (re_sub_delete p s).
Proof.
  intros Hp. remember (length s) as n eqn:Hn. revert s Hn.
  induction n as [n IH] using lt_wf_ind. intros s ->.
  destruct (contains p s) eqn:E.
  - destruct (first_occurrence p s Hp E) as (t & rest & -> & Hnone).
    rewrite re_sub_delete_first by done. constructor; [done|].
    apply (IH (length rest)); [|done].
    rewrite !length_app. destruct p; [done|simpl; lia].
  - rewrite re_sub_delete_absent by done. by constructor.
Qed.

Lemma app_eq_split (x1 x2 y1 y2 : pystr) :
  x1 ++ x2 = y1 ++ y2 ->
  exists l, (y1 = x1 ++ l /\ x2 = l ++ y2) \/ (x1 = y1 ++ l /\ y2 = l ++ x2).
Proof.
  revert y1. induction x1 as [|a x1 IH]; intros y1; simpl.
  - intros ->. exists y1. by left.
  - destruct y1 as [|b y1]; simpl.
    + intros <-. exists (a :: x1). by right.
    + intros [= -> (l & [[-> ->]|[-> ->]])%IH]; exists l; [by left|by right].
Qed.

Lemma contains_nil (s : pystr) : contains [] s = true.
Proof. by destruct s. Qed.

Lemma contains_of_startswith (p s : pystr) :
  startswith p s = true -> contains p s = true.
Proof. intros Hs. destruct s; simpl in *; by rewrite Hs. Qed.

Lemma contains_occurrence (p t rest : pystr) :
  contains p (t ++ p ++ rest) = true.
Proof. apply contains_app_r, contains_of_startswith, startswith_self. Qed.

(** Where the first occurrence lies is determined. *)
Lemma first_occurrence_unique (p t1 rest1 t2 rest2 : pystr) :
  contains p (t1 ++ removelast p) = false ->
  contains p (t2 ++ removelast p) = false ->
  t1 ++ p ++ rest1 = t2 ++ p ++ rest2 ->
  t1 = t2 /\ rest1 = rest2.
Proof.
  assert (forall t1 rest1 t2 rest2 l,
            contains p (t2 ++ removelast p) = false ->
            t2 = t1 ++ l -> p ++ rest1 = l ++ p ++ rest2 -> l = []) as Hstep.
  { clear. intros t1 rest1 t2 rest2 l Hnone -> Heq.
    destruct l as [|c l]; [done|]. exfalso.
    assert (p ≠ []) as Hp.
    { intros ->. by rewrite contains_nil in Hnone. }
    assert (startswith p ((c :: l) ++ removelast p) = true) as Hs.
    { rewrite <- (startswith_before p l rest2 c Hp), <- Heq.
      apply startswith_self. }
    rewrite <- app_assoc in Hnone.
    assert (contains p (t1 ++ (c :: l) ++ removelast p) = true); [|congruence].
    by apply contains_app_r, contains_of_startswith. }
  intros H1 H2 Heq.
  destruct (app_eq_split _ _ _ _ Heq) as (l & [[-> Hl]|[-> Hl]]).
  - assert (l = []) as -> by exact (Hstep t1 rest1 (t1 ++ l) rest2 l H2 eq_refl Hl).
    rewrite app_nil_r. simpl in Hl. by apply app_inv_head in Hl.
  - assert (l = []) as -> by exact (Hstep t2 rest2 (t2 ++ l) rest1 l H1 eq_refl Hl).
    rewrite app_nil_r. simpl in Hl. by apply app_inv_head in Hl.
Qed.

(** The deletion has one result. *)
Lemma deletes_unique (p s r r' : pystr) :
  deletes p s r -> deletes p s r' -> r = r'.
Proof.
  intros Hr. revert r'.
  induction Hr as [t Hnone|t rest r Hnone Hr IH]; intros r' Hr'.
  - inversion Hr' as [|t' rest' r'' Hnone' Hrest Heq]; [done|]. subst.
    by rewrite contains_occurrence in Hnone.
  - inversion Hr' as [t' Hnone'|t' rest' r'' Hnone' Hrest Heq]; subst.
    + by rewrite contains_occurrence in Hnone'.
    + destruct (first_occurrence_unique p t rest t' rest' Hnone Hnone' (eq_sym Heq))
        as [<- <-]. f_equal. by apply IH.
Qed.

(** *** Occurrences and stripping *)

Lemma contains_lstrip (a : N) (p s : pystr) :
  is_space a = false -> contains (a :: p) (lstrip s) = contains (a :: p) s.
Proof.
  intros Ha. induction s as [|c s IH]; [done|]. simpl lstrip.
  destruct (is_space c) eqn:Ec; [|done]. rewrite IH.
  change (contains (a :: p) (c :: s))
    with ((a =? c) && startswith p s || contains (a :: p) s).
  destruct (a =? c) eqn:E; [|done]. apply N.eqb_eq in E. congruence.
Qed.

Lemma rstrip_snoc (x : pystr) (c : N) :
  rstrip (x ++ [c]) = if is_space c then rstrip x else x ++ [c].
Proof.
  unfold rstrip. rewrite rev_app_distr. simpl.
  destruct (is_space c); [done|]. simpl. by rewrite rev_involutive.
Qed.

Lemma startswith_snoc (p z : pystr) (c : N) :
  startswith p (z ++ [c]) = true -> startswith p z = true \/ p = z ++ [c].
Proof.
  revert z. induction p as [|a p IH]; intros z; [by left|].
  destruct z as [|b z]; simpl.
  - intros [->%N.eqb_eq Hp]%andb_true_iff. right. by destruct p.
  - intros [->%N.eqb_eq [Hp| ->]%IH]%andb_true_iff.
    + left. by rewrite N.eqb_refl.
    + by right.
Qed.

(** A blank appended to a text adds no occurrence of a pattern that ends
    with another character. *)
Lemma contains_snoc_space (q x : pystr) (z c : N) :
  is_space z = false -> is_space c = true ->
  contains (q ++ [z]) (x ++ [c]) = contains (q ++ [z]) x.
Proof.
  intros Hz Hc.
  assert (forall y, startswith (q ++ [z]) (y ++ [c]) = startswith (q ++ [z]) y)
    as Hstart.
  { intros y. destruct (startswith (q ++ [z]) (y ++ [c])) eqn:E.
    - apply startswith_snoc in E as [E|E]; [done|].
      apply app_inj_tail in E as [_ ->]. congruence.
    - destruct (startswith (q ++ [z]) y) eqn:E'; [|done].
      apply (startswith_app _ _ [c]) in E'. congruence. }
  induction x as [|b x IH].
  - change (contains (q ++ [z]) ([] ++ [c]))
      with (startswith (q ++ [z]) ([] ++ [c]) || contains (q ++ [z]) []).
    rewrite Hstart.
    change (contains (q ++ [z]) []) with (startswith (q ++ [z]) [] || false).
    by destruct (startswith (q ++ [z]) []).
  - change (contains (q ++ [z]) ((b :: x) ++ [c]))
      with (startswith (q ++ [z]) ((b :: x) ++ [c])
            || contains (q ++ [z]) (x ++ [c])).
    by rewrite Hstart, IH.
Qed.

Lemma contains_rstrip (q s : pystr) (z : N) :
  is_space z = false -> contains (q ++ [z]) (rstrip s) = contains (q ++ [z]) s.
Proof.
  intros Hz. induction s as [|c s IH] using rev_ind; [done|].
  rewrite rstrip_snoc. destruct (is_space c) eqn:Ec; [|done].
  by rewrite IH, contains_snoc_space.
Qed.

(** Stripping neither removes nor adds a fence. *)
Lemma contains_fence_strip (s : pystr) :
  contains (u "```") (strip s) = contains (u "```") s.
Proof.
  unfold strip.
  rewrite (contains_rstrip [96; 96] _ 96) by done.
  by rewrite (contains_lstrip 96 [96; 96]).
Qed.

End DeleteFacts.

(** ** Cleaning the response *)

(** C9: whatever the response, the cleaned text is the stripped result of
    two deletions: every occurrence of the tagged fence is deleted from the
    response, then every occurrence of the plain fence from what is left,
    wherever they are, and nothing else is changed (the result of the two
    deletions is unique). So the cleaned text contains no fence, with or
    without a language tag, at any position; it has no blank at either end;
    it is obtained from the response by deleting characters only; and it
    differs from the response with its ends stripped exactly when the
    response contains a fence, also inside a JSON string value. *)
Theorem clean_json_response_deletes_fences (s : pystr) :
  let r := clean_json_response s in
  (exists r1 r2,
     deletes (u "```json") s r1 /\ deletes (u "```") r1 r2 /\ r = strip r2) /\
  (forall r1 r2,
     deletes (u "```json") s r1 -> deletes (u "```") r1 r2 -> r = strip r2) /\
  contains (u "```") r = false /\
  contains (u "```json") r = false /\
  strip r = r /\
  r `sublist_of` s /\
  (if contains (u "```") s then r ≠ strip s else r = strip s).
Proof.
  intros r. subst r. unfold clean_json_response.
  pose proof (re_sub_delete_deletes (u "```json") s) as Hd1.
  pose proof (re_sub_delete_deletes (u "```")
                (re_sub_delete (u "```json") s)) as Hd2.
  assert (contains (u "```")
            (strip (re_sub_delete (u "```") (re_sub_delete (u "```json") s)))
          = false) as Hnone.
  { apply contains_strip, delete_fence_none_left. }
  split; [eexists _, _; split; [by apply Hd1|split; [by apply Hd2|done]]|].
  split.
  { intros r1 r2 H1 H2.
    rewrite (deletes_unique _ _ _ _ H1 (Hd1 ltac:(done))) in H2.
    by rewrite (deletes_unique _ _ _ _ H2 (Hd2 ltac:(done))). }
  split; [done|]. split; [by apply (contains_longer (u "```") (u "json"))|].
  split; [apply strip_idem|]. split.
  - etrans; [apply strip_sublist|].
    etrans; apply re_sub_delete_from_sublist.
  - destruct (contains (u "```") s) eqn:E.
    + intros Heq. rewrite Heq, contains_fence_strip in Hnone. congruence.
    + rewrite (re_sub_delete_absent (u "```json") s)
        by by apply (contains_longer (u "```") (u "json")).
      by rewrite re_sub_delete_absent.
Qed.

(** A fence inside a JSON string value goes as well. *)
Example clean_json_response_inside_value :
  clean_json_response
    (u "```json" ++ [NL] ++
     u "{" ++ [DQUOTE] ++ u "description" ++ [DQUOTE] ++ u ": " ++
     [DQUOTE] ++ u "run ```make``` first" ++ [DQUOTE] ++ u "}" ++ [NL] ++
     u "```")
  = u "{" ++ [DQUOTE] ++ u "description" ++ [DQUOTE] ++ u ": " ++
    [DQUOTE] ++ u "run make first" ++ [DQUOTE] ++ u "}".
Proof. reflexivity. Qed.

(** Backticks that meet once a tagged fence between them is gone form a
    fence of their own, and go with the second deletion. *)
Example clean_json_response_joined_fence :
  clean_json_response (u "a````json``b") = u "ab".
Proof. reflexivity. Qed.

(** ** The normalizer *)

Section NormalizerFacts.
Context `{Unicode} `{PyCountry}.

Arguments u : simpl never.
Arguments lower : simpl never.
Arguments upper : simpl never.
Arguments strip : simpl never.
Arguments contains : simpl never.

Ltac lookup_inserts :=
  repeat (rewrite lookup_insert_eq || rewrite lookup_insert_ne by done).

(** *** The blocks, one at a time *)

Lemma set_defaults_run (d : gmap string pyval) :
  set_defaults d =
  (Return tt, <["latin_audience" := PStr (u "Yes")]> (<["label" := PStr (u "ONErpm")]> d)).
Proof. reflexivity. Qed.

Lemma map_genre_run (d : gmap string pyval) :
  map_genre d =
  (Return tt,
   <["genre" := let genre := default (PStr EMPTY) (d !! "genre") in
                genre_map_get genre genre]> d).
Proof. reflexivity. Qed.

Lemma map_release_type_null (d : gmap string pyval) :
  d !! "release_type" = Some PNone ->
  map_release_type d = (Raise (AttributeError "strip"), d).
Proof. intros Hrt. unfold map_release_type, dict_get, mbind, M_bind. by rewrite Hrt. Qed.

Lemma map_release_type_returns (d : gmap string pyval) :
  d !! "release_type" ≠ Some PNone ->
  (map_release_type d).1 = Return tt.
Proof.
  intros Hrt. unfold map_release_type, dict_get, mbind, M_bind.
  destruct (d !! "release_type") as [[|r]|]; [done| |]; simpl;
    repeat case_match; reflexivity.
Qed.

Lemma map_release_type_other (d : gmap string pyval) (k : string) :
  k ≠ "release_type" ->
  (map_release_type d).2 !! k = d !! k.
Proof.
  intros Hk. unfold map_release_type, dict_get, mbind, M_bind.
  destruct (d !! "release_type") as [[|r]|]; simpl; [done| |];
    repeat case_match; simpl; by rewrite ?lookup_insert_ne.
Qed.

(** What the block stores for a release type [r] that is a string. *)
Lemma map_release_type_str (d : gmap string pyval) (r : pystr) :
  d !! "release_type" = Some (PStr r) ->
  (map_release_type d).2 !! "release_type" =
  Some (PStr
    (let rtype := strip r in
     let rtype_lower := lower rtype in
     if contains (u "single + video") rtype_lower then u "New Single"
     else if contains (u "album + video") rtype_lower then u "New Album"
     else if contains (u "ep + video") rtype_lower then u "New EP"
     else if is_empty rtype then u "New Single"
     else r)).
Proof.
  intros Hrt. unfold map_release_type, dict_get, mbind, M_bind.
  rewrite Hrt. simpl.
  repeat case_match; simpl; by rewrite ?lookup_insert_eq.
Qed.

(** An absent release type is read as the empty string. *)
Lemma map_release_type_absent (d : gmap string pyval) :
  d !! "release_type" = None ->
  (map_release_type d).2 !! "release_type" = Some (PStr (u "New Single")).
Proof.
  intros Hrt. unfold map_release_type, dict_get, mbind, M_bind.
  rewrite Hrt.
  etrans; [|apply (lookup_insert_eq d "release_type")]. reflexivity.
Qed.

Lemma fix_country_returns (d : gmap string pyval) :
  (fix_country d).1 = Return tt.
Proof.
  unfold fix_country, dict_get, mbind, M_bind. simpl.
  repeat case_match; reflexivity.
Qed.

Lemma fix_country_other (d : gmap string pyval) (k : string) :
  k ≠ "country_name" -> k ≠ "country_code" ->
  (fix_country d).2 !! k = d !! k.
Proof.
  intros Hn Hc. unfold fix_country, dict_get, mbind, M_bind. simpl.
  repeat case_match; simpl; by rewrite ?lookup_insert_ne.
Qed.

(** The name [get_country_name] finds is what is stored, also when it is
    empty. *)
Lemma stored_name (c : option country) :
  (let full_name := match c with Some c => PStr (name c) | None => PNone end in
   if truthy full_name then full_name else PStr EMPTY) =
  PStr (match c with Some c => name c | None => EMPTY end).
Proof. destruct c as [[a [|x n]]|]; reflexivity. Qed.

(** The country fields after the block, for a non-empty code [cc]. *)
Lemma fix_country_str (d : gmap string pyval) (cc : pystr) :
  d !! "country_code" = Some (PStr cc) -> cc ≠ EMPTY ->
  let d' := (fix_country d).2 in
  if Nat.eqb (length cc) 2 then
    d' !! "country_code" = Some (PStr cc) /\
    d' !! "country_name" =
      Some (PStr match countries_get (upper cc) with
                 | Return (Some c) => name c
                 | _ => EMPTY
                 end)
  else
    match search_fuzzy cc with
    | Return (c0 :: _) =>
      d' !! "country_code" = Some (PStr (alpha_2 c0)) /\
      d' !! "country_name" = Some (PStr (name c0))
    | Return [] =>
      d' !! "country_code" = Some (PStr cc) /\
      d' !! "country_name" = d !! "country_name"
    | Raise _ =>
      d' !! "country_code" = Some (PStr cc) /\
      d' !! "country_name" = Some (PStr EMPTY)
    end.
Proof.
  intros Hcc Hne. unfold fix_country, dict_get, mbind, M_bind.
  rewrite Hcc. simpl. destruct cc as [|c0 cc]; [done|]. simpl is_empty. cbv iota.
  destruct (Nat.eqb (length (c0 :: cc)) 2).
  - unfold get_country_name.
    destruct (countries_get (upper (c0 :: cc))) as [[[a [|x n]]|]|e]; simpl;
      lookup_inserts; by rewrite Hcc.
  - destruct (search_fuzzy (c0 :: cc)) as [[|m ms]|e]; simpl;
      lookup_inserts; by rewrite ?Hcc.
Qed.

(** *** The whole normalizer *)

(** The dict the release-type block starts from. *)
#[local] Abbreviation before_release_type d := ((map_genre (set_defaults d).2).2).

Lemma normalizer_run (d : gmap string pyval) :
  apply_business_logic d =
  match map_release_type (before_release_type d) with
  | (Return _, d3) => fix_country d3
  | (Raise e, d3) => (Raise e, d3)
  end.
Proof. reflexivity. Qed.

Lemma before_release_type_lookup (d : gmap string pyval) (k : string) :
  k ≠ "label" -> k ≠ "latin_audience" -> k ≠ "genre" ->
  before_release_type d !! k = d !! k.
Proof. intros. rewrite set_defaults_run, map_genre_run. simpl. by lookup_inserts. Qed.

Lemma before_release_type_defaults (d : gmap string pyval) :
  before_release_type d !! "label" = Some (PStr (u "ONErpm")) /\
  before_release_type d !! "latin_audience" = Some (PStr (u "Yes")).
Proof. rewrite set_defaults_run, map_genre_run. simpl. by lookup_inserts. Qed.

Lemma before_release_type_genre (d : gmap string pyval) :
  before_release_type d !! "genre" =
  Some (let genre := default (PStr EMPTY) (d !! "genre") in
        genre_map_get genre genre).
Proof. rewrite set_defaults_run, map_genre_run. simpl. by lookup_inserts. Qed.

(** A [None] release type makes [strip] fail, after the defaults and the
    genre have been written. *)
Lemma normalizer_null_release_type (d : gmap string pyval) :
  d !! "release_type" = Some PNone ->
  (apply_business_logic d).1 = Raise (AttributeError "strip").
Proof.
  intros Hrt. rewrite normalizer_run, map_release_type_null; [done|].
  by rewrite before_release_type_lookup.
Qed.

(** With a release type that is a string, or absent, the call returns. *)
Lemma normalizer_returns (d : gmap string pyval) :
  d !! "release_type" ≠ Some PNone ->
  (apply_business_logic d).1 = Return tt.
Proof.
  intros Hrt. rewrite normalizer_run.
  pose proof (map_release_type_returns (before_release_type d)) as Hret.
  rewrite before_release_type_lookup in Hret by done.
  destruct (map_release_type _) as [[[]|e] d3]; simpl in Hret.
  - apply fix_country_returns.
  - by specialize (Hret Hrt).
Qed.

(** A field that neither the release-type block nor the country block
    writes has the value it had before them. *)
Lemma normalizer_other (d : gmap string pyval) (k : string) :
  k ≠ "release_type" -> k ≠ "country_name" -> k ≠ "country_code" ->
  (apply_business_logic d).2 !! k = before_release_type d !! k.
Proof.
  intros Hr Hn Hc. rewrite normalizer_run.
  pose proof (map_release_type_other (before_release_type d) k Hr) as Hk.
  destruct (map_release_type _) as [[[]|e] d3]; simpl in Hk.
  - by rewrite fix_country_other.
  - done.
Qed.

(** The defaults are in the dict however the call ends. *)
Lemma normalizer_defaults (d : gmap string pyval) :
  (apply_business_logic d).2 !! "label" = Some (PStr (u "ONErpm")) /\
  (apply_business_logic d).2 !! "latin_audience" = Some (PStr (u "Yes")).
Proof.
  rewrite !normalizer_other by done. apply before_release_type_defaults.
Qed.

Lemma normalizer_genre (d : gmap string pyval) :
  (apply_business_logic d).2 !! "genre" =
  Some (let genre := default (PStr EMPTY) (d !! "genre") in
        genre_map_get genre genre).
Proof. rewrite normalizer_other by done. apply before_release_type_genre. Qed.

(** The release type is what the release-type block leaves. *)
Lemma normalizer_release_type (d : gmap string pyval) :
  (apply_business_logic d).2 !! "release_type" =
  (map_release_type (before_release_type d)).2 !! "release_type".
Proof.
  rewrite normalizer_run.
  destruct (map_release_type _) as [[[]|e] d3]; simpl; [|done].
  by rewrite fix_country_other.
Qed.

(** The country fields are what the country block leaves, when it runs. *)
Lemma normalizer_country (d : gmap string pyval) (k : string) :
  d !! "release_type" ≠ Some PNone ->
  (apply_business_logic d).2 !! k =
  (fix_country (map_release_type (before_release_type d)).2).2 !! k.
Proof.
  intros Hrt. rewrite normalizer_run.
  pose proof (map_release_type_returns (before_release_type d)) as Hret.
  rewrite before_release_type_lookup in Hret by done.
  destruct (map_release_type _) as [[[]|e] d3]; simpl in *; [done|].
  by specialize (Hret Hrt).
Qed.

(** No value of the genre table is one of its keys. *)
Lemma genre_map_values_unmapped (g v : pystr) :
  assoc g genre_map = Some v -> assoc v genre_map = None.
Proof.
  unfold genre_map at 1. unfold assoc at 1. unfold pystr_eqb.
  repeat case_bool_decide; intros [= <-]; reflexivity.
Qed.

Lemma genre_map_get_stable (g : pyval) :
  genre_map_get (genre_map_get g g) (genre_map_get g g) = genre_map_get g g.
Proof.
  destruct g as [|s]; [done|]. unfold genre_map_get.
  destruct (assoc s genre_map) as [v|] eqn:E.
  - by rewrite (genre_map_values_unmapped s v E).
  - by rewrite E.
Qed.

(** The release type the release-type block leaves for the string [r]. *)
#[local] Abbreviation release_type_rule r :=
  (let rtype := strip r in
   let rtype_lower := lower rtype in
   if contains (u "single + video") rtype_lower then u "New Single"
   else if contains (u "album + video") rtype_lower then u "New Album"
   else if contains (u "ep + video") rtype_lower then u "New EP"
   else if is_empty rtype then u "New Single"
   else r%list).

Lemma normalizer_release_type_str (d : gmap string pyval) (r : pystr) :
  d !! "release_type" = Some (PStr r) ->
  (apply_business_logic d).2 !! "release_type" = Some (PStr (release_type_rule r)).
Proof.
  intros Hrt. rewrite normalizer_release_type.
  apply map_release_type_str. by rewrite before_release_type_lookup.
Qed.

Lemma normalizer_release_type_absent (d : gmap string pyval) :
  d !! "release_type" = None ->
  (apply_business_logic d).2 !! "release_type" = Some (PStr (u "New Single")).
Proof.
  intros Hrt. rewrite normalizer_release_type.
  apply map_release_type_absent. by rewrite before_release_type_lookup.
Qed.

(** What the block leaves is left as it is by a second pass. *)
Lemma release_type_rule_stable (r : pystr) :
  release_type_rule (release_type_rule r) = release_type_rule r.
Proof.
  cbv zeta.
  destruct (contains (u "single + video") (lower (strip r))) eqn:E1; [reflexivity|].
  destruct (contains (u "album + video") (lower (strip r))) eqn:E2; [reflexivity|].
  destruct (contains (u "ep + video") (lower (strip r))) eqn:E3; [reflexivity|].
  destruct (is_empty (strip r)) eqn:E4; [reflexivity|].
  by rewrite E1, E2, E3, E4.
Qed.

(** *** The claims about the normalizer *)

(** C1 (the code departs from it): a record whose release type is null, as
    the extraction prompt allows for fields the model cannot find, makes
    [apply_business_logic] raise [AttributeError] instead of returning the
    record. *)
Theorem normalizer_raises_on_null_release_type :
  (apply_business_logic (<["release_type" := PNone]> ∅)).1
  = Raise (AttributeError "strip").
Proof. apply normalizer_null_release_type, lookup_insert_eq. Qed.

(** C2, amended: for a record whose country code is the non-empty string
    [cc] (and whose release type is not null, so that the country block is
    reached): with [len(cc) == 2] the code is kept and the name is the
    catalog's name for the upper-cased code, or empty when there is none;
    otherwise, when the fuzzy search returns matches, both fields come from
    the first match; when it returns no match they are not written; and
    when it raises, the name is set to the empty string while the code keeps
    the input. *)
Theorem country_resolution (d : gmap string pyval) (cc : pystr) :
  d !! "country_code" = Some (PStr cc) -> cc ≠ EMPTY ->
  d !! "release_type" ≠ Some PNone ->
  let d' := (apply_business_logic d).2 in
  (apply_business_logic d).1 = Return tt /\
  if Nat.eqb (length cc) 2 then
    d' !! "country_code" = Some (PStr cc) /\
    d' !! "country_name" =
      Some (PStr match countries_get (upper cc) with
                 | Return (Some c) => name c
                 | _ => EMPTY
                 end)
  else
    match search_fuzzy cc with
    | Return (c0 :: _) =>
      d' !! "country_code" = Some (PStr (alpha_2 c0)) /\
      d' !! "country_name" = Some (PStr (name c0))
    | Return [] =>
      d' !! "country_code" = Some (PStr cc) /\
      d' !! "country_name" = d !! "country_name"
    | Raise _ =>
      d' !! "country_code" = Some (PStr cc) /\
      d' !! "country_name" = Some (PStr EMPTY)
    end.
Proof.
  intros Hcc Hne Hrt d'. split; [by apply normalizer_returns|].
  subst d'. rewrite !normalizer_country by done.
  set (d3 := (map_release_type _).2).
  assert (d3 !! "country_code" = Some (PStr cc)) as Hcc3.
  { subst d3. by rewrite map_release_type_other, before_release_type_lookup. }
  assert (d3 !! "country_name" = d !! "country_name") as Hcn3.
  { subst d3. by rewrite map_release_type_other, before_release_type_lookup. }
  rewrite <- Hcn3. exact (fix_country_str d3 cc Hcc3 Hne).
Qed.

(** C3, amended: for a release type that is the string [r], the call
    returns and the field holds: New Single, New Album or New EP for the
    first of the three phrases found in the trimmed, lower-cased text; New
    Single when the trimmed text is empty; and otherwise [r] itself, as it
    was, not trimmed. *)
Theorem release_type_mapping (d : gmap string pyval) (r : pystr) :
  d !! "release_type" = Some (PStr r) ->
  (apply_business_logic d).1 = Return tt /\
  (apply_business_logic d).2 !! "release_type" =
  Some (PStr
    (let rtype := strip r in
     let rtype_lower := lower rtype in
     if contains (u "single + video") rtype_lower then u "New Single"
     else if contains (u "album + video") rtype_lower then u "New Album"
     else if contains (u "ep + video") rtype_lower then u "New EP"
     else if is_empty rtype then u "New Single"
     else r)).
Proof.
  intros Hrt. split.
  - apply normalizer_returns. by rewrite Hrt.
  - by apply normalizer_release_type_str.
Qed.

(** C5: whatever the record held, after [apply_business_logic] its label is
    ONErpm and its latin_audience is Yes; this holds of the dict however the
    call ends, so in particular of the record it returns. *)
Theorem defaults_forced (d : gmap string pyval) :
  let d' := (apply_business_logic d).2 in
  d' !! "label" = Some (PStr (u "ONErpm")) /\
  d' !! "latin_audience" = Some (PStr (u "Yes")) /\
  forall data, call_on apply_business_logic d = Return data -> data = d'.
Proof.
  destruct (normalizer_defaults d) as [Hl Ha]. repeat split; [done..|].
  intros data. unfold call_on.
  destruct (apply_business_logic d) as [[[]|e] d1]; simpl; congruence.
Qed.

(** C6: for a record whose release type is a string (or absent), the
    normalizer returns on the record and again on its result, and the second
    pass leaves genre, release_type, label and latin_audience as the first
    pass set them. *)
Theorem normalizer_idempotent (d : gmap string pyval) :
  d !! "release_type" ≠ Some PNone ->
  let d1 := (apply_business_logic d).2 in
  let d2 := (apply_business_logic d1).2 in
  (apply_business_logic d).1 = Return tt /\
  (apply_business_logic d1).1 = Return tt /\
  d2 !! "genre" = d1 !! "genre" /\
  d2 !! "release_type" = d1 !! "release_type" /\
  d2 !! "label" = d1 !! "label" /\
  d2 !! "latin_audience" = d1 !! "latin_audience".
Proof.
  intros Hrt d1 d2.
  assert (exists x, d1 !! "release_type" = Some (PStr x)
                    /\ release_type_rule x = x) as (x & Hx & Hstable).
  { subst d1. destruct (d !! "release_type") as [[|r]|] eqn:E; [done| |].
    - exists (release_type_rule r). split.
      + by apply normalizer_release_type_str.
      + apply release_type_rule_stable.
    - exists (u "New Single"). split.
      + by apply normalizer_release_type_absent.
      + reflexivity. }
  split; [by apply normalizer_returns|].
  split; [apply normalizer_returns; by rewrite Hx|].
  subst d2. repeat split.
  - rewrite normalizer_genre. subst d1. rewrite normalizer_genre. simpl.
    by rewrite genre_map_get_stable.
  - rewrite (normalizer_release_type_str d1 x Hx). by rewrite Hstable.
  - rewrite (proj1 (normalizer_defaults d1)). subst d1.
    by rewrite (proj1 (normalizer_defaults d)).
  - rewrite (proj2 (normalizer_defaults d1)). subst d1.
    by rewrite (proj2 (normalizer_defaults d)).
Qed.

(** C10: for a two-character country code [cc] the catalog is asked for the
    upper-cased code, so the lookup does not depend on the case of [cc], and
    when it finds a country the record keeps [cc] as it was written and gets
    the country's name. *)
Theorem two_letter_code_keeps_case (d : gmap string pyval) (cc : pystr) (c : country) :
  d !! "country_code" = Some (PStr cc) -> length cc = 2%nat ->
  d !! "release_type" ≠ Some PNone ->
  countries_get (upper cc) = Return (Some c) ->
  (apply_business_logic d).1 = Return tt /\
  (apply_business_logic d).2 !! "country_code" = Some (PStr cc) /\
  (apply_business_logic d).2 !! "country_name" = Some (PStr (name c)).
Proof.
  intros Hcc Hlen Hrt Hget. split; [by apply normalizer_returns|].
  rewrite !normalizer_country by done.
  set (d3 := (map_release_type _).2).
  assert (d3 !! "country_code" = Some (PStr cc)) as Hcc3.
  { subst d3. by rewrite map_release_type_other, before_release_type_lookup. }
  assert (cc ≠ EMPTY) as Hne by (by destruct cc).
  pose proof (fix_country_str d3 cc Hcc3 Hne) as Hfix.
  simpl in Hfix. by rewrite Hlen, Hget in Hfix.
Qed.

End NormalizerFacts.

(** *** The normalizer on concrete records *)

Section NormalizerExamples.
#[local] Existing Instance Sample.unicode.
#[local] Existing Instance Sample.pycountry.

(** C2 as stated fails: a country text the fuzzy search does not find
    leaves the country code as it was, not empty. *)
Lemma fuzzy_failure_keeps_code :
  let d : gmap string pyval := <["country_code" := PStr (u "Atlantis")]> ∅ in
  search_fuzzy (u "Atlantis") = Raise (Sample.LookupError (u "Atlantis")) /\
  (apply_business_logic d).2 !! "country_name" = Some (PStr EMPTY) /\
  (apply_business_logic d).2 !! "country_code" = Some (PStr (u "Atlantis")) /\
  (apply_business_logic d).2 !! "country_code" ≠ Some (PStr EMPTY).
Proof. vm_compute. repeat split; discriminate. Qed.

(** The resolution of a full country name, on the sample catalog. *)
Lemma country_resolution_witness :
  let d : gmap string pyval := <["country_code" := PStr (u "United States")]> ∅ in
  (d !! "country_code" = Some (PStr (u "United States")) /\
   u "United States" ≠ EMPTY /\ d !! "release_type" ≠ Some PNone) /\
  (apply_business_logic d).2 !! "country_code" = Some (PStr (u "US")) /\
  (apply_business_logic d).2 !! "country_name" = Some (PStr (u "United States")).
Proof.
  intros d.
  assert (d !! "country_code" = Some (PStr (u "United States"))) as H1
    by reflexivity.
  assert (u "United States" ≠ EMPTY) as H2 by discriminate.
  assert (d !! "release_type" ≠ Some PNone) as H3 by discriminate.
  split; [done|].
  exact (proj2 (country_resolution d (u "United States") H1 H2 H3)).
Defined.

(** C3 as stated fails: a release type no rule matches is left with its
    surrounding blanks. *)
Lemma unmatched_release_type_not_trimmed :
  let d : gmap string pyval := <["release_type" := PStr (u "  Remix  ")]> ∅ in
  (apply_business_logic d).2 !! "release_type" = Some (PStr (u "  Remix  ")) /\
  (apply_business_logic d).2 !! "release_type" ≠ Some (PStr (u "Remix")).
Proof. vm_compute. split; [reflexivity|discriminate]. Qed.

(** A release type with a video phrase, in mixed case and with blanks. *)
Lemma release_type_mapping_witness :
  let d : gmap string pyval := <["release_type" := PStr (u " Single + Video ")]> ∅ in
  d !! "release_type" = Some (PStr (u " Single + Video ")) /\
  (apply_business_logic d).1 = Return tt /\
  (apply_business_logic d).2 !! "release_type" = Some (PStr (u "New Single")).
Proof.
  intros d.
  assert (d !! "release_type" = Some (PStr (u " Single + Video "))) as H1
    by reflexivity.
  split; [done|].
  exact (release_type_mapping d (u " Single + Video ") H1).
Defined.

(** Two passes over a record that the first pass rewrites. *)
Lemma normalizer_idempotent_witness :
  Sample.cumbia_record !! "release_type" ≠ Some PNone /\
  let d1 := (apply_business_logic Sample.cumbia_record).2 in
  let d2 := (apply_business_logic d1).2 in
  d1 !! "genre" = Some (PStr (u "Tropical")) /\
  d1 !! "release_type" = Some (PStr (u "New EP")) /\
  d2 !! "genre" = d1 !! "genre" /\
  d2 !! "release_type" = d1 !! "release_type" /\
  d2 !! "label" = d1 !! "label" /\
  d2 !! "latin_audience" = d1 !! "latin_audience".
Proof.
  assert (Sample.cumbia_record !! "release_type" ≠ Some PNone) as H1 by discriminate.
  split; [done|]. intros d1 d2.
  split; [reflexivity|]. split; [reflexivity|].
  exact (proj2 (proj2 (normalizer_idempotent Sample.cumbia_record H1))).
Defined.

(** The lower-case code of the United States. *)
Lemma two_letter_code_keeps_case_witness :
  let d : gmap string pyval := <["country_code" := PStr (u "us")]> ∅ in
  countries_get (upper (u "us"))
    = Return (Some {| alpha_2 := u "US"; name := u "United States" |}) /\
  (apply_business_logic d).1 = Return tt /\
  (apply_business_logic d).2 !! "country_code" = Some (PStr (u "us")) /\
  (apply_business_logic d).2 !! "country_name" = Some (PStr (u "United States")).
Proof.
  intros d.
  assert (countries_get (upper (u "us"))
          = Return (Some {| alpha_2 := u "US"; name := u "United States" |})) as H4
    by reflexivity.
  split; [done|].
  refine (two_letter_code_keeps_case d (u "us") _ _ _ _ H4);
    [reflexivity | reflexivity | discriminate].
Defined.

End NormalizerExamples.

(** ** Extraction and review *)

Section FlowFacts.
Context `{Unicode} `{PyCountry} `{Collaborators} `{FormFramework}.

Arguments u : simpl never.

(** *** The Parse Data button *)

(** The handler never touches the generated script. *)
Lemma parse_button_script (raw : pystr) (st : session) :
  generated_script (parse_button raw st).1 = generated_script st.
Proof.
  unfold parse_button. destruct (is_empty raw); [done|].
  destruct (parse_release_data raw) as [[parsed|] shown]; [|done].
  by case_bool_decide.
Qed.

(** C7: when the model call raises, or the cleaned response does not
    decode, with exception [e]: [parse_release_data] shows the error and
    returns [None]; what it does is the same whatever the normalizer is, so
    no normalization takes place; and the handler of the button leaves the
    session, with the record parsed before, as it was. *)
Theorem failed_extraction_keeps_record (raw : pystr) (st : session) (e : exn) :
  raw ≠ EMPTY ->
  (response_text ← generate_content (prompt raw);
   json_loads (clean_json_response response_text)) = Raise e ->
  parse_release_data raw
    = (None, [StError (u "Error parsing data: " ++ exn_msg e)]) /\
  (forall normalize : M unit,
     parse_release_data_with normalize raw = parse_release_data raw) /\
  parse_button raw st
    = (st, [StError (u "Error parsing data: " ++ exn_msg e)]).
Proof.
  intros Hraw Hfail.
  assert (forall normalize : M unit,
            parse_release_data_with normalize raw
            = (None, [StError (u "Error parsing data: " ++ exn_msg e)])) as Hany.
  { intros normalize. unfold parse_release_data_with.
    unfold mbind, outcome_bind in *.
    destruct (generate_content (prompt raw)) as [response_text|e1].
    - by rewrite Hfail.
    - by inversion Hfail. }
  split; [apply Hany|]. split.
  - intros normalize. unfold parse_release_data. by rewrite !Hany.
  - unfold parse_button. destruct raw as [|c raw]; [done|]. simpl.
    unfold parse_release_data. by rewrite Hany.
Qed.

(** A decoded record whose release type is null fails in the normalizer;
    the failure is reported like a failed extraction. *)
Lemma null_release_type_fails_parse (raw : pystr) (st : session)
    (data : gmap string pyval) :
  raw ≠ EMPTY ->
  (response_text ← generate_content (prompt raw);
   json_loads (clean_json_response response_text)) = Return data ->
  data !! "release_type" = Some PNone ->
  parse_button raw st
    = (st, [StError (u "Error parsing data: "
                     ++ exn_msg (AttributeError "strip"))]).
Proof.
  intros Hraw Hdata Hrt.
  unfold parse_button. destruct raw as [|c raw]; [done|]. simpl.
  unfold parse_release_data, parse_release_data_with.
  unfold mbind, outcome_bind in *.
  destruct (generate_content _) as [response_text|e1]; [|done].
  rewrite Hdata. unfold call_on.
  pose proof (normalizer_null_release_type data Hrt) as Hraise.
  by destruct (apply_business_logic data) as [[[]|e] d']; simplify_eq/=.
Qed.

(** *** The review form *)

(** The flag of the ISRC check: the ISRC is there and is well formed. *)
Lemma check_isrc_flag (isrc : pyval) :
  (check_isrc isrc).1 = truthy isrc && validate_isrc isrc.
Proof.
  unfold check_isrc. destruct (truthy isrc); [|done].
  by destruct (validate_isrc isrc).
Qed.







End FlowFacts.

(** *** The flow on the concrete environment *)

Section FlowExamples.
#[local] Existing Instance Sample.unicode.
#[local] Existing Instance Sample.pycountry.
#[local] Existing Instance Sample.collaborators.
#[local] Existing Instance Sample.framework.

(** A response that is not JSON, with a record already under review. *)
Lemma failed_extraction_keeps_record_witness :
  let raw := u "Remix pack, details to follow" in
  let st := {| parsed_data := Some Sample.cumbia_record; generated_script := None |} in
  let e := {| exn_class := "JSONDecodeError";
              exn_msg := u "Expecting value: line 1 column 1 (char 0)" |} in
  (raw ≠ EMPTY /\
   (response_text ← generate_content (prompt raw);
    json_loads (clean_json_response response_text)) = Raise e) /\
  parse_button raw st
    = (st, [StError (u "Error parsing data: " ++ exn_msg e)]).
Proof.
  intros raw st e.
  assert (raw ≠ EMPTY) as H1 by discriminate.
  assert ((response_text ← generate_content (prompt raw);
           json_loads (clean_json_response response_text)) = Raise e) as H2
    by (vm_compute; reflexivity).
  split; [done|].
  exact (proj2 (proj2 (failed_extraction_keeps_record raw st e H1 H2))).
Defined.

(** A failing model call is reported in the same way. *)
Example failed_generation_keeps_record :
  parse_button (u "over quota") Sample.fresh
  = (Sample.fresh, [StError (u "Error parsing data: 429 quota")]).
Proof. vm_compute. reflexivity. Qed.

(** The session after a first successful parse: a record without ISRC. *)
Example parsed_session :
  (script_run (Sample.paste (u "a new song")) Sample.fresh).1
  = {| parsed_data :=
         Some (<["label" := PStr (u "ONErpm")]>
               (<["latin_audience" := PStr (u "Yes")]>
               (<["genre" := PStr EMPTY]>
               (<["release_type" := PStr (u "New Single")]> ∅))));
       generated_script := None |}.
Proof. vm_compute. reflexivity. Qed.


(** With a well-formed ISRC typed in, the same press generates the script
    and stores the edited record. *)
Example valid_isrc_generates_script :
  let st1 := (script_run (Sample.paste (u "a new song")) Sample.fresh).1 in
  let st2 := (script_run (Sample.submit_isrc (u "USRC17607839")) st1).1 in
  generated_script st2 ≠ None /\
  (parsed_data st2 ≫= lookup "isrc") = Some (PStr (u "USRC17607839")).
Proof. vm_compute. split; [discriminate|reflexivity]. Qed.

End FlowExamples.

(** * Further properties of the helpers *)

(** ** Case mapping of ASCII text *)

Section AsciiFacts.
Context `{Unicode}.

Lemma upper_ascii (s : pystr) :
  forallb is_ascii s = true -> upper s = map ascii_upper s.
Proof. intros Hs. unfold upper. by rewrite Hs. Qed.

Lemma lower_ascii (s : pystr) :
  forallb is_ascii s = true -> lower s = map ascii_lower s.
Proof. intros Hs. unfold lower. by rewrite Hs. Qed.

Lemma ascii_lower_is_ascii (c : N) :
  is_ascii c = true -> is_ascii (ascii_lower c) = true.
Proof.
  unfold is_ascii, ascii_lower. intros Hc%N.ltb_lt.
  destruct (65 <=? c) eqn:E1, (c <=? 90) eqn:E2; simpl; apply N.ltb_lt; try lia.
  apply N.leb_le in E2. lia.
Qed.

Lemma ascii_upper_is_ascii (c : N) :
  is_ascii c = true -> is_ascii (ascii_upper c) = true.
Proof.
  unfold is_ascii, ascii_upper. intros Hc%N.ltb_lt.
  destruct (97 <=? c) eqn:E1, (c <=? 122) eqn:E2; simpl; apply N.ltb_lt; lia.
Qed.

Lemma map_is_ascii (f : N -> N) (s : pystr) :
  (forall c, is_ascii c = true -> is_ascii (f c) = true) ->
  forallb is_ascii s = true -> forallb is_ascii (map f s) = true.
Proof.
  intros Hf. induction s as [|c s IH]; simpl; [done|].
  intros [Hc Hs]%andb_true_iff. by rewrite Hf, IH.
Qed.

Lemma remove_char_is_ascii (x : N) (s : pystr) :
  forallb is_ascii s = true -> forallb is_ascii (remove_char x s) = true.
Proof.
  unfold remove_char. induction s as [|c s IH]; simpl; [done|].
  intros [Hc Hs]%andb_true_iff. rewrite filter_cons.
  destruct (decide (c ≠ x)); simpl; [by rewrite Hc, IH|by apply IH].
Qed.

(** Upper-casing forgets an earlier change of case. *)
Lemma ascii_upper_lower (c : N) : ascii_upper (ascii_lower c) = ascii_upper c.
Proof.
  unfold ascii_upper, ascii_lower.
  destruct (65 <=? c) eqn:E1, (c <=? 90) eqn:E2; simpl; try reflexivity.
  apply N.leb_le in E1, E2.
  replace (97 <=? c + 32) with true by (symmetry; apply N.leb_le; lia).
  replace (c + 32 <=? 122) with true by (symmetry; apply N.leb_le; lia).
  replace (97 <=? c) with false by (symmetry; apply N.leb_gt; lia).
  simpl. lia.
Qed.

Lemma ascii_upper_upper (c : N) : ascii_upper (ascii_upper c) = ascii_upper c.
Proof.
  unfold ascii_upper.
  destruct (97 <=? c) eqn:E1, (c <=? 122) eqn:E2; simpl; rewrite ?E1, ?E2;
    try reflexivity.
  apply N.leb_le in E1, E2.
  replace (97 <=? c - 32) with false by (symmetry; apply N.leb_gt; lia).
  reflexivity.
Qed.

(** The hyphen is no letter: a change of case neither makes nor removes
    one. *)
Lemma ascii_lower_hyphen (c : N) : ascii_lower c = HYPHEN <-> c = HYPHEN.
Proof.
  unfold ascii_lower, HYPHEN.
  destruct (65 <=? c) eqn:E1, (c <=? 90) eqn:E2; simpl; try done.
  apply N.leb_le in E1. lia.
Qed.

Lemma ascii_upper_hyphen (c : N) : ascii_upper c = HYPHEN <-> c = HYPHEN.
Proof.
  unfold ascii_upper, HYPHEN.
  destruct (97 <=? c) eqn:E1, (c <=? 122) eqn:E2; simpl; try done.
  apply N.leb_le in E1. lia.
Qed.

Lemma remove_hyphen_map (f : N -> N) (s : pystr) :
  (forall c, f c = HYPHEN <-> c = HYPHEN) ->
  remove_char HYPHEN (map f s) = map f (remove_char HYPHEN s).
Proof.
  intros Hf. unfold remove_char. induction s as [|c s IH]; simpl; [done|].
  rewrite !filter_cons, IH.
  destruct (decide (f c ≠ HYPHEN)) as [Hn|Hn], (decide (c ≠ HYPHEN)) as [Hc|Hc];
    try done.
  - destruct Hn. apply Hf. by apply dec_stable.
  - destruct Hc. apply Hf. by apply dec_stable.
Qed.

Lemma remove_char_app (x : N) (a b : pystr) :
  remove_char x (a ++ b) = remove_char x a ++ remove_char x b.
Proof. unfold remove_char. apply filter_app. Qed.

(** The cleaned ISRC of a text in another case. *)
Lemma clean_isrc_recased (f : N -> N) (s : pystr) :
  (forall c, is_ascii c = true -> is_ascii (f c) = true) ->
  (forall c, f c = HYPHEN <-> c = HYPHEN) ->
  (forall c, ascii_upper (f c) = ascii_upper c) ->
  forallb is_ascii s = true ->
  upper (remove_char HYPHEN (map f s)) = upper (remove_char HYPHEN s).
Proof.
  intros Hascii Hhyphen Hup Hs.
  rewrite remove_hyphen_map by done.
  rewrite !upper_ascii
    by (try apply map_is_ascii; try done; by apply remove_char_is_ascii).
  rewrite map_map. apply map_ext. intros c. apply Hup.
Qed.

Lemma is_empty_map (f : N -> N) (s : pystr) : is_empty (map f s) = is_empty s.
Proof. by destruct s. Qed.

End AsciiFacts.

(** ** The ISRC check, further *)

Section IsrcMore.
Context `{Unicode}.

(** X1: [validate_isrc] accepts exactly the strings whose text, once the
    hyphens are removed and the rest is upper-cased, is an ISRC of the
    12-character format, or such an ISRC followed by one newline; [None]
    and the empty string are rejected. *)
Theorem validate_isrc_accepts_exactly (v : pyval) :
  validate_isrc v = true <->
  exists s body,
    v = PStr s /\ isrc_format body = true /\
    (upper (remove_char HYPHEN s) = body
     \/ upper (remove_char HYPHEN s) = body ++ [NL]).
Proof.
  destruct v as [|s].
  { split; [done|]. by intros (s & body & [=] & _). }
  rewrite validate_isrc_spec. cbv zeta.
  set (clean_isrc := upper (remove_char HYPHEN s)). split.
  - intros [Hs [Hf|[Hf Hnl]%andb_true_iff]%orb_true_iff]%andb_true_iff.
    + exists s, clean_isrc. eauto.
    + exists s, (take 12 clean_isrc). split; [done|]. split; [done|]. right.
      apply bool_decide_eq_true in Hnl. rewrite <- Hnl. by rewrite take_drop.
  - intros (s' & body & [= <-] & Hf & Hclean). fold clean_isrc in Hclean.
    assert (length body = 12%nat) as Hlen.
    { unfold isrc_format in Hf. rewrite !andb_true_iff in Hf.
      destruct Hf as [[[Hl _] _] _]. by apply Nat.eqb_eq in Hl. }
    assert (is_empty s = false) as ->.
    { destruct s; [|done]. exfalso.
      assert (clean_isrc = []) as Hnil by reflexivity. rewrite Hnil in Hclean.
      destruct Hclean as [<-|E]; [done|by destruct body]. }
    simpl. destruct Hclean as [->| ->].
    + by rewrite Hf.
    + rewrite take_app_length' by done. rewrite drop_app_length' by done.
      rewrite Hf. simpl. unfold pystr_eqb. rewrite bool_decide_eq_true_2 by done.
      apply orb_true_r.
Qed.

(** X2: a hyphen may stand anywhere, or be left out: inserting one into a
    text does not change the verdict. *)
Theorem validate_isrc_ignores_hyphen (a b : pystr) :
  validate_isrc (PStr (a ++ HYPHEN :: b)) = validate_isrc (PStr (a ++ b)).
Proof.
  unfold validate_isrc.
  assert (remove_char HYPHEN (a ++ HYPHEN :: b) = remove_char HYPHEN (a ++ b)) as ->.
  { rewrite !remove_char_app. by f_equal. }
  destruct (is_empty (a ++ b)) eqn:E.
  - by destruct a, b.
  - by destruct a.
Qed.

(** X3: on ASCII text the verdict does not depend on the case of the
    letters. *)
Theorem validate_isrc_ignores_case (s : pystr) :
  forallb is_ascii s = true ->
  validate_isrc (PStr (lower s)) = validate_isrc (PStr s) /\
  validate_isrc (PStr (upper s)) = validate_isrc (PStr s).
Proof.
  intros Hs. rewrite lower_ascii, upper_ascii by done.
  unfold validate_isrc. rewrite !is_empty_map. split.
  - rewrite (clean_isrc_recased ascii_lower); try done.
    + apply ascii_lower_is_ascii.
    + apply ascii_lower_hyphen.
    + apply ascii_upper_lower.
  - rewrite (clean_isrc_recased ascii_upper); try done.
    + apply ascii_upper_is_ascii.
    + apply ascii_upper_hyphen.
    + apply ascii_upper_upper.
Qed.

End IsrcMore.

(** ** The country name, further *)

Section CountryNameMore.
Context `{Unicode} `{PyCountry}.

(** X4: [get_country_name] looks a code up without regard to the case of
    its ASCII letters: the lower-cased and the upper-cased code give what
    the code itself gives. *)
Theorem get_country_name_ignores_case (code : pystr) :
  forallb is_ascii code = true ->
  get_country_name (PStr (lower code)) = get_country_name (PStr code) /\
  get_country_name (PStr (upper code)) = get_country_name (PStr code).
Proof.
  intros Hs. unfold get_country_name.
  assert (upper (lower code) = upper code) as ->.
  { rewrite lower_ascii by done.
    rewrite !upper_ascii by (try apply map_is_ascii; try done;
                             apply ascii_lower_is_ascii).
    rewrite map_map. apply map_ext, ascii_upper_lower. }
  assert (upper (upper code) = upper code) as ->; [|done].
  rewrite (upper_ascii code) by done.
  rewrite upper_ascii by (apply map_is_ascii; [apply ascii_upper_is_ascii|done]).
  rewrite map_map. apply map_ext, ascii_upper_upper.
Qed.

End CountryNameMore.

(** ** Cleaning the response, further *)

Section CleanMore.

#[local] Arguments N.eqb : simpl never.

(** Text without a backtick is copied as it is. *)
Lemma delete_copies_plain (p x rest : pystr) :
  forallb (fun c => negb (96 =? c)) x = true ->
  re_sub_delete_from (96 :: p) 0 (x ++ rest)
  = x ++ re_sub_delete_from (96 :: p) 0 rest.
Proof.
  induction x as [|c x IH]; [done|]. simpl.
  intros [Hc Hx]%andb_true_iff. apply negb_true_iff in Hc.
  rewrite Hc. simpl. by rewrite IH.
Qed.

Lemma lstrip_app_space (x : pystr) (c : N) :
  is_space c = true ->
  lstrip (x ++ [c]) = match lstrip x with [] => [] | y => y ++ [c] end.
Proof.
  intros Hc. induction x as [|a x IH]; simpl; [by rewrite Hc|].
  by destruct (is_space a).
Qed.

Lemma rstrip_app_space (x : pystr) (c : N) :
  is_space c = true -> rstrip (x ++ [c]) = rstrip x.
Proof.
  intros Hc. unfold rstrip. rewrite rev_app_distr. simpl. by rewrite Hc.
Qed.

(** A blank on either side does not survive stripping. *)
Lemma strip_wrapped (c1 c2 : N) (body : pystr) :
  is_space c1 = true -> is_space c2 = true ->
  strip (c1 :: body ++ [c2]) = strip body.
Proof.
  intros H1 H2. unfold strip. simpl. rewrite H1.
  rewrite lstrip_app_space by done.
  destruct (lstrip body) as [|y ys] eqn:E; [done|].
  by rewrite rstrip_app_space.
Qed.

(** X5: cleaning is idempotent: a cleaned response is left as it is by a
    second cleaning. *)
Theorem clean_json_response_idempotent (s : pystr) :
  clean_json_response (clean_json_response s) = clean_json_response s.
Proof.
  assert (contains (u "```") (clean_json_response s) = false) as Hnone.
  { unfold clean_json_response. apply contains_strip, delete_fence_none_left. }
  unfold clean_json_response at 1.
  rewrite (re_sub_delete_absent (u "```json"))
    by by apply (contains_longer (u "```") (u "json")).
  rewrite re_sub_delete_absent by done.
  unfold clean_json_response. apply strip_idem.
Qed.

(** X6: a response that is one fenced block, the opening fence tagged json,
    with a body that has no backtick, is cleaned to the body with its ends
    stripped. *)
Theorem clean_json_response_fenced_block (body : pystr) :
  forallb (fun c => negb (96 =? c)) body = true ->
  clean_json_response (u "```json" ++ [NL] ++ body ++ [NL] ++ u "```")
  = strip body.
Proof.
  intros Hbody. unfold clean_json_response.
  assert (forallb (fun c => negb (96 =? c)) (NL :: body ++ [NL]) = true) as Hplain.
  { simpl. rewrite forallb_app, Hbody. reflexivity. }
  assert (re_sub_delete (u "```json")
            (u "```json" ++ [NL] ++ body ++ [NL] ++ u "```")
          = (NL :: body ++ [NL]) ++ u "```") as ->.
  { change (re_sub_delete (u "```json")
              (u "```json" ++ [NL] ++ body ++ [NL] ++ u "```"))
      with (re_sub_delete_from (u "```json") 0
              ((NL :: body) ++ [NL] ++ u "```")).
    replace ((NL :: body) ++ [NL] ++ u "```")
      with ((NL :: body ++ [NL]) ++ u "```") by (simpl; by rewrite <- app_assoc).
    by rewrite (delete_copies_plain (u "``json")). }
  unfold re_sub_delete.
  rewrite (delete_copies_plain [96; 96]) by done.
  change (re_sub_delete_from [96; 96; 96] 0 (u "```")) with (@nil N).
  rewrite app_nil_r. by apply strip_wrapped.
Qed.

End CleanMore.

Section CleanExamples.

(** The fenced answer of the sample model. *)
Lemma clean_json_response_fenced_block_witness :
  forallb (fun c => negb (96 =? c)) (u "{}") = true /\
  clean_json_response Sample.record_text = u "{}".
Proof.
  assert (forallb (fun c => negb (96 =? c)) (u "{}") = true) as H1 by reflexivity.
  split; [done|].
  exact (clean_json_response_fenced_block (u "{}") H1).
Defined.

End CleanExamples.

(** * Further properties of the normalizer *)

Section NormalizerMore.
Context `{Unicode} `{PyCountry}.

Arguments u : simpl never.
Arguments lower : simpl never.
Arguments upper : simpl never.
Arguments strip : simpl never.
Arguments contains : simpl never.

#[local] Abbreviation after_genre d := ((map_genre (set_defaults d).2).2).

#[local] Abbreviation kept_release_type r :=
  (let rtype := strip r in
   let rtype_lower := lower rtype in
   if contains (u "single + video") rtype_lower then u "New Single"
   else if contains (u "album + video") rtype_lower then u "New Album"
   else if contains (u "ep + video") rtype_lower then u "New EP"
   else if is_empty rtype then u "New Single"
   else r%list).

(** The dict at the point where a null release type makes the call fail. *)
Lemma after_genre_dict (d : gmap string pyval) :
  after_genre d =
  <["genre" := let genre := default (PStr EMPTY) (d !! "genre") in
               genre_map_get genre genre]>
    (<["latin_audience" := PStr (u "Yes")]> (<["label" := PStr (u "ONErpm")]> d)).
Proof.
  rewrite set_defaults_run, map_genre_run. simpl.
  by rewrite !lookup_insert_ne by done.
Qed.

(** With no country code to resolve, the country block does nothing. *)
Lemma fix_country_skips (d : gmap string pyval) :
  truthy (default (PStr EMPTY) (d !! "country_code")) = false ->
  fix_country d = (Return tt, d).
Proof.
  unfold fix_country, dict_get, mbind, M_bind.
  destruct (default (PStr EMPTY) (d !! "country_code")) as [|[|c s]]; done.
Qed.

(** The release type the normalizer leaves is one a second pass keeps. *)
Lemma normalizer_release_type_settled (d : gmap string pyval) :
  d !! "release_type" ≠ Some PNone ->
  exists x, (apply_business_logic d).2 !! "release_type" = Some (PStr x)
            /\ kept_release_type x = x.
Proof.
  intros Hrt. destruct (d !! "release_type") as [[|r]|] eqn:E; [done| |].
  - exists (kept_release_type r). split.
    + by apply normalizer_release_type_str.
    + apply release_type_rule_stable.
  - exists (u "New Single"). split.
    + by apply normalizer_release_type_absent.
    + reflexivity.
Qed.

(** On a dict that already holds what the first three blocks would write,
    they change nothing. *)
Lemma after_genre_fixed (d : gmap string pyval) (g : pyval) :
  d !! "label" = Some (PStr (u "ONErpm")) ->
  d !! "latin_audience" = Some (PStr (u "Yes")) ->
  d !! "genre" = Some g -> genre_map_get g g = g ->
  after_genre d = d.
Proof.
  intros Hl Ha Hg Hstable. rewrite after_genre_dict.
  rewrite (insert_id d "label") by done.
  rewrite (insert_id d "latin_audience") by done.
  rewrite Hg. simpl. rewrite Hstable. by apply insert_id.
Qed.

Lemma map_release_type_fixed (d : gmap string pyval) (x : pystr) :
  d !! "release_type" = Some (PStr x) -> kept_release_type x = x ->
  map_release_type d = (Return tt, d).
Proof.
  intros Hrt Hkept. unfold map_release_type, dict_get, mbind, M_bind.
  rewrite Hrt. simpl. cbv zeta in Hkept.
  repeat case_match; try done; unfold dict_set; rewrite Hkept;
    by rewrite insert_id.
Qed.

(** The dict the country block leaves, for a non-empty code [cc]. *)
Lemma fix_country_result (d : gmap string pyval) (cc : pystr) :
  d !! "country_code" = Some (PStr cc) -> cc ≠ EMPTY ->
  fix_country d =
  (Return tt,
   if Nat.eqb (length cc) 2 then
     <["country_name" := PStr match countries_get (upper cc) with
                              | Return (Some c) => name c
                              | _ => EMPTY
                              end]> d
   else
     match search_fuzzy cc with
     | Return (c0 :: _) =>
       <["country_code" := PStr (alpha_2 c0)]>
         (<["country_name" := PStr (name c0)]> d)
     | Return [] => d
     | Raise _ => <["country_name" := PStr EMPTY]> d
     end).
Proof.
  intros Hcc Hne. unfold fix_country, dict_get, mbind, M_bind.
  rewrite Hcc. simpl. destruct cc as [|c0 cc]; [done|]. simpl is_empty. cbv iota.
  destruct (Nat.eqb (length (c0 :: cc)) 2).
  - unfold get_country_name.
    by destruct (countries_get (upper (c0 :: cc))) as [[[a [|x n]]|]|e].
  - by destruct (search_fuzzy (c0 :: cc)) as [[|m ms]|e].
Qed.

(** The country block resolves what it has resolved to the same fields. *)
Lemma fix_country_idem (d : gmap string pyval) :
  consistent_catalog ->
  fix_country (fix_country d).2 = (Return tt, (fix_country d).2).
Proof.
  intros Hcat.
  destruct (truthy (default (PStr EMPTY) (d !! "country_code"))) eqn:Hcc.
  2: { rewrite (fix_country_skips d) by done. by apply fix_country_skips. }
  destruct (d !! "country_code") as [[|cc]|] eqn:E; try done.
  assert (cc ≠ EMPTY) as Hne by (by destruct cc).
  rewrite (fix_country_result d cc E Hne). cbn [snd].
  destruct (Nat.eqb (length cc) 2) eqn:Hlen.
  - (* a two-letter code: the same lookup again *)
    rewrite (fix_country_result _ cc) by (by rewrite ?lookup_insert_ne).
    rewrite Hlen. by rewrite insert_insert_eq.
  - destruct (search_fuzzy cc) as [[|c0 rest]|e] eqn:Hsearch.
    + (* no match: nothing was written *)
      rewrite (fix_country_result d cc E Hne). by rewrite Hlen, Hsearch.
    + (* a match: its code is looked up and gives its name *)
      destruct (Hcat cc c0 rest Hsearch) as (Hlen0 & c' & Hget & Hname).
      rewrite (fix_country_result _ (alpha_2 c0));
        [|apply lookup_insert_eq|by destruct (alpha_2 c0)].
      rewrite Hlen0, Hget, Hname. simpl. f_equal. apply insert_id.
      rewrite lookup_insert_ne by done. apply lookup_insert_eq.
    + (* the search fails: it fails again *)
      rewrite (fix_country_result _ cc) by (by rewrite ?lookup_insert_ne).
      rewrite Hlen, Hsearch. by rewrite insert_insert_eq.
Qed.

(** *** What a caller of the normalizer can rely on *)

(** X7: the normalizer writes label, latin_audience, genre, release_type,
    country_name and country_code and nothing else: every other field of
    the record (the artist, the title, the UPC, the ISRC, the date, the
    description, ...) is as it was, however the call ends. *)
Theorem normalizer_keeps_other_fields (d : gmap string pyval) (k : string) :
  k ≠ "label" -> k ≠ "latin_audience" -> k ≠ "genre" ->
  k ≠ "release_type" -> k ≠ "country_name" -> k ≠ "country_code" ->
  (apply_business_logic d).2 !! k = d !! k.
Proof.
  intros. rewrite normalizer_other by done.
  by apply before_release_type_lookup.
Qed.

(** X8: the normalizer raises exactly when the release type is null, and
    then the record is left half-way: the defaults and the genre are
    written, the release type and the country fields are untouched. In
    every other case it returns. *)
Theorem normalizer_outcome (d : gmap string pyval) :
  match d !! "release_type" with
  | Some PNone =>
    apply_business_logic d =
    (Raise (AttributeError "strip"),
     <["genre" := let genre := default (PStr EMPTY) (d !! "genre") in
                  genre_map_get genre genre]>
       (<["latin_audience" := PStr (u "Yes")]>
          (<["label" := PStr (u "ONErpm")]> d)))
  | _ => (apply_business_logic d).1 = Return tt
  end.
Proof.
  destruct (d !! "release_type") as [[|r]|] eqn:E.
  - rewrite normalizer_run, map_release_type_null.
    + by rewrite after_genre_dict.
    + by rewrite before_release_type_lookup.
  - apply normalizer_returns. by rewrite E.
  - apply normalizer_returns. by rewrite E.
Qed.

(** X9: when the country code is absent, null or empty, the country block
    is skipped: country_code and country_name are what they were (an absent
    field stays absent). *)
Theorem normalizer_skips_empty_country (d : gmap string pyval) :
  d !! "release_type" ≠ Some PNone ->
  truthy (default (PStr EMPTY) (d !! "country_code")) = false ->
  (apply_business_logic d).2 !! "country_code" = d !! "country_code" /\
  (apply_business_logic d).2 !! "country_name" = d !! "country_name".
Proof.
  intros Hrt Hcc. rewrite !normalizer_country by done.
  set (d3 := (map_release_type _).2).
  assert (d3 !! "country_code" = d !! "country_code") as Hcc3.
  { subst d3. by rewrite map_release_type_other, before_release_type_lookup. }
  assert (d3 !! "country_name" = d !! "country_name") as Hcn3.
  { subst d3. by rewrite map_release_type_other, before_release_type_lookup. }
  rewrite fix_country_skips by (by rewrite Hcc3). done.
Qed.

(** X10: over a consistent catalog the normalizer is idempotent on the whole
    record: applied to its own result it returns it unchanged, the country
    fields included. *)
Theorem normalizer_idempotent_on_record (d : gmap string pyval) :
  consistent_catalog ->
  d !! "release_type" ≠ Some PNone ->
  apply_business_logic (apply_business_logic d).2
  = (Return tt, (apply_business_logic d).2).
Proof.
  intros Hcat Hrt.
  destruct (normalizer_release_type_settled d Hrt) as (x & Hx & Hkept).
  destruct (normalizer_defaults d) as [Hl Ha].
  pose proof (normalizer_genre d) as Hg. simpl in Hg.
  set (d1 := (apply_business_logic d).2) in *.
  rewrite (normalizer_run d1).
  rewrite (after_genre_fixed d1 _ Hl Ha Hg) by apply genre_map_get_stable.
  rewrite (map_release_type_fixed d1 x Hx Hkept).
  assert (exists d3, d1 = (fix_country d3).2) as [d3 ->].
  { subst d1. rewrite normalizer_run.
    pose proof (map_release_type_returns (after_genre d)) as Hret.
    rewrite before_release_type_lookup in Hret by done.
    destruct (map_release_type _) as [[[]|e] d3]; simpl in Hret.
    - by exists d3.
    - by specialize (Hret Hrt). }
  by apply fix_country_idem.
Qed.

End NormalizerMore.

(** ** The normalizer on concrete records, further *)

Section NormalizerMoreExamples.
#[local] Existing Instance Sample.unicode.
#[local] Existing Instance Sample.pycountry.

(** An ISRC in lower case. *)
Lemma validate_isrc_ignores_case_witness :
  forallb is_ascii (u "usrc17607839") = true /\
  validate_isrc (PStr (lower (u "usrc17607839"))) = true /\
  validate_isrc (PStr (upper (u "usrc17607839"))) = true.
Proof.
  assert (forallb is_ascii (u "usrc17607839") = true) as H1 by reflexivity.
  split; [done|].
  exact (validate_isrc_ignores_case (u "usrc17607839") H1).
Defined.

(** The code of the United States in mixed case. *)
Lemma get_country_name_ignores_case_witness :
  forallb is_ascii (u "Us") = true /\
  get_country_name (PStr (lower (u "Us"))) = PStr (u "United States") /\
  get_country_name (PStr (upper (u "Us"))) = PStr (u "United States").
Proof.
  assert (forallb is_ascii (u "Us") = true) as H1 by reflexivity.
  split; [done|].
  exact (get_country_name_ignores_case (u "Us") H1).
Defined.

(** The ISRC of a record is not touched. *)
Lemma normalizer_keeps_other_fields_witness :
  let d : gmap string pyval :=
    <["isrc" := PStr (u "USRC17607839")]> Sample.cumbia_record in
  (apply_business_logic d).2 !! "isrc" = Some (PStr (u "USRC17607839")).
Proof.
  intros d.
  refine (normalizer_keeps_other_fields d "isrc" _ _ _ _ _ _); discriminate.
Defined.

(** A record whose country is null. *)
Lemma normalizer_skips_empty_country_witness :
  let d : gmap string pyval := <["country_code" := PNone]> ∅ in
  (d !! "release_type" ≠ Some PNone /\
   truthy (default (PStr EMPTY) (d !! "country_code")) = false) /\
  (apply_business_logic d).2 !! "country_code" = Some PNone /\
  (apply_business_logic d).2 !! "country_name" = None.
Proof.
  intros d.
  assert (d !! "release_type" ≠ Some PNone) as H1 by discriminate.
  assert (truthy (default (PStr EMPTY) (d !! "country_code")) = false) as H2
    by reflexivity.
  split; [done|].
  exact (normalizer_skips_empty_country d H1 H2).
Defined.

(** The sample catalog is consistent. *)
Lemma sample_catalog_consistent : consistent_catalog.
Proof.
  intros query c0 rest Hsearch. simpl in Hsearch.
  destruct (filter _ Sample.catalog) as [|c1 found] eqn:Hfilter; [done|].
  injection Hsearch as -> _.
  assert (c0 ∈ Sample.catalog) as Hin.
  { assert (c0 ∈ c0 :: found) as Hhead by apply list_elem_of_here.
    rewrite <- Hfilter in Hhead. by apply list_elem_of_filter in Hhead as [_ ?]. }
  unfold Sample.catalog in Hin.
  repeat (apply elem_of_cons in Hin as [->|Hin]);
    try (split; [reflexivity|eexists; split; reflexivity]).
  by apply elem_of_nil in Hin.
Qed.

(** A full country name, resolved by the first pass, stays resolved. *)
Lemma normalizer_idempotent_on_record_witness :
  let d : gmap string pyval := <["country_code" := PStr (u "United States")]> ∅ in
  (consistent_catalog /\ d !! "release_type" ≠ Some PNone) /\
  (apply_business_logic d).2 !! "country_code" = Some (PStr (u "US")) /\
  apply_business_logic (apply_business_logic d).2
  = (Return tt, (apply_business_logic d).2).
Proof.
  intros d.
  assert (d !! "release_type" ≠ Some PNone) as H1 by discriminate.
  split; [split; [apply sample_catalog_consistent|done]|].
  split; [reflexivity|].
  exact (normalizer_idempotent_on_record d sample_catalog_consistent H1).
Defined.

End NormalizerMoreExamples.

(** * Further properties of the parse and review flow *)

Section FlowMore.
Context `{Unicode} `{PyCountry} `{Collaborators} `{FormFramework}.

Arguments u : simpl never.

(** The normalizer never leaves an empty record. *)
Lemma normalized_nonempty (data : gmap string pyval) :
  (apply_business_logic data).2 ≠ ∅.
Proof.
  intros Hempty. destruct (normalizer_defaults data) as [Hl _].
  rewrite Hempty in Hl. by rewrite lookup_empty in Hl.
Qed.

(** A record that [parse_release_data] returns is a normalized one. *)
Lemma parse_release_data_some (raw : pystr) (parsed : gmap string pyval)
    (shown : list ui_event) :
  parse_release_data raw = (Some parsed, shown) ->
  shown = [] /\
  exists data, (apply_business_logic data).1 = Return tt
               /\ parsed = (apply_business_logic data).2.
Proof.
  unfold parse_release_data, parse_release_data_with, mbind, outcome_bind.
  destruct (generate_content _) as [response_text|e]; [|done].
  destruct (json_loads _) as [data|e]; [|done].
  unfold call_on.
  destruct (apply_business_logic data) as [[[]|e] d'] eqn:E; [|done].
  intros [= <- <-]. split; [done|]. exists data. by rewrite E.
Qed.

Lemma normalized_has_fields (data : gmap string pyval) :
  (apply_business_logic data).1 = Return tt ->
  has_normalized_fields (apply_business_logic data).2.
Proof.
  intros Hret. destruct (normalizer_defaults data) as [Hl Ha].
  repeat split; [by rewrite Hl|by rewrite Ha|by rewrite normalizer_genre|].
  destruct (data !! "release_type") as [[|r]|] eqn:E.
  - by rewrite normalizer_null_release_type in Hret.
  - by rewrite (normalizer_release_type_str data r E).
  - by rewrite (normalizer_release_type_absent data E).
Qed.

Lemma updated_has_fields (f : review_form) (d : gmap string pyval) :
  has_normalized_fields (update_parsed_data f d).
Proof.
  unfold has_normalized_fields, update_parsed_data.
  repeat split;
    repeat (rewrite lookup_insert_eq || rewrite lookup_insert_ne by done); done.
Qed.

Lemma updated_nonempty (f : review_form) (d : gmap string pyval) :
  update_parsed_data f d ≠ ∅.
Proof. unfold update_parsed_data. apply insert_non_empty. Qed.

(** What the handler of Parse Data leaves under review. *)
Lemma parse_button_record (raw : pystr) (st : session) :
  parsed_data (parse_button raw st).1 = parsed_data st \/
  exists data, (apply_business_logic data).1 = Return tt
               /\ parsed_data (parse_button raw st).1
                  = Some (apply_business_logic data).2.
Proof.
  unfold parse_button. destruct (is_empty raw); [by left|].
  destruct (parse_release_data raw) as [[parsed|] shown] eqn:E; [|by left].
  destruct (parse_release_data_some _ _ _ E) as (_ & data & Hret & ->).
  case_bool_decide; [by left|]. right. by exists data.
Qed.

(** What the review section leaves under review. *)
Lemma review_section_record (a : user_action) (st : session) :
  parsed_data (review_section a st).1 = parsed_data st \/
  exists f d, parsed_data (review_section a st).1 = Some (update_parsed_data f d).
Proof.
  unfold review_section. destruct (parsed_data st) as [d|] eqn:E; [|by left].
  case_bool_decide; [by left|].
  destruct (check_isrc _) as [isrc_valid shown].
  destruct (form_submit_button _ _); [|by left].
  right. by eexists _, _.
Qed.

(** The record a run leaves under review: the one it found (created empty
    at the first run), a freshly normalized one, or an edited one. *)
Lemma script_run_record (a : user_action) (st : session) :
  parsed_data (script_run a st).1 = parsed_data st \/
  parsed_data (script_run a st).1 = Some ∅ /\ parsed_data st = None \/
  (exists data, (apply_business_logic data).1 = Return tt
                /\ parsed_data (script_run a st).1
                   = Some (apply_business_logic data).2) \/
  exists f d, parsed_data (script_run a st).1 = Some (update_parsed_data f d).
Proof.
  unfold script_run. destruct (truthy GOOGLE_API_KEY); [|by left]. simpl.
  set (st0 := match parsed_data st with Some _ => st | None => _ end).
  assert (parsed_data st0 = parsed_data st
          \/ parsed_data st0 = Some ∅ /\ parsed_data st = None) as Hs0.
  { subst st0. destruct (parsed_data st) eqn:E; simpl; [by left|by right]. }
  set (r1 := if parse_pressed a then parse_button (raw_text a) st0 else (st0, [])).
  assert (parsed_data r1.1 = parsed_data st0 \/
          exists data, (apply_business_logic data).1 = Return tt
                       /\ parsed_data r1.1 = Some (apply_business_logic data).2)
    as Hs1.
  { subst r1. destruct (parse_pressed a); [apply parse_button_record|by left]. }
  destruct r1 as [st1 shown1]. simpl in Hs1.
  pose proof (review_section_record a st1) as Hs2.
  destruct (review_section a st1) as [st2 shown2]. simpl in *.
  destruct Hs2 as [Hs2|Hs2]; [|by right; right; right].
  rewrite Hs2. destruct Hs1 as [Hs1|Hs1]; [|by right; right; left].
  rewrite Hs1. destruct Hs0 as [Hs0|Hs0]; [by left|by right; left].
Qed.

(** *** What a user of the page can rely on *)

(** X11: when the model answers and its cleaned answer decodes to a record
    whose release type is not null, Parse Data puts the normalized record
    under review, keeps the script generated before, and reports success:
    the normalized record is never empty, so the success branch is always
    taken. *)
Theorem successful_parse_stores_normalized_record
    (raw : pystr) (st : session) (data : gmap string pyval) :
  raw ≠ EMPTY ->
  (response_text ← generate_content (prompt raw);
   json_loads (clean_json_response response_text)) = Return data ->
  data !! "release_type" ≠ Some PNone ->
  parse_button raw st
  = ({| parsed_data := Some (apply_business_logic data).2;
        generated_script := generated_script st |},
     [StSuccess (u "Parsing complete!")]).
Proof.
  intros Hraw Hdata Hrt.
  unfold parse_button. destruct raw as [|c raw]; [done|]. simpl.
  unfold parse_release_data, parse_release_data_with.
  unfold mbind, outcome_bind in *.
  destruct (generate_content _) as [response_text|e1]; [|done].
  rewrite Hdata. unfold call_on.
  pose proof (normalizer_returns data Hrt) as Hret.
  pose proof (normalized_nonempty data) as Hne.
  destruct (apply_business_logic data) as [[[]|e] d']; simplify_eq/=.
  by rewrite bool_decide_eq_false_2.
Qed.

(** X12: what was submitted is what the form shows at the next run, when
    nothing is typed, for every field but the country: artist, title, UPC,
    ISRC, label, release date, description, genre, release type and latin
    audience are read back from the updated record. *)
Theorem submitted_values_shown_again
    (a : user_action) (d : gmap string pyval) (raw : pystr) (p b : bool) :
  let f := read_form a d in
  let f' := read_form {| raw_text := raw; parse_pressed := p;
                         typed := fun _ => None; submit_pressed := b |}
                      (update_parsed_data f d) in
  f_artist f' = f_artist f /\ f_title f' = f_title f /\ f_upc f' = f_upc f /\
  f_isrc f' = f_isrc f /\ f_label f' = f_label f /\
  f_release_date f' = f_release_date f /\
  f_description f' = f_description f /\ f_genre f' = f_genre f /\
  f_rtype f' = f_rtype f /\ f_latin_audience f' = f_latin_audience f.
Proof.
  intros f f'. subst f'.
  unfold read_form at 1 2 3 4 5 6 7 8 9 10. unfold text_input, field,
    update_parsed_data. cbn [typed f_artist f_title f_upc f_isrc f_label
    f_release_date f_description f_genre f_rtype f_latin_audience].
  repeat (rewrite lookup_insert_eq || rewrite lookup_insert_ne by done).
  repeat split; try done.
  (* the ISRC of a form is never [None] *)
  simpl. subst f. unfold read_form, text_input. simpl.
  destruct (typed a "ISRC"); [done|]. by destruct (field d "isrc" _).
Qed.

(** X13: the country is not read back in that way. The form stores what
    its country box shows under country_code and leaves country_name; so
    when a country name is stored, the box of the next run shows the name
    followed by the previous content of the box in parentheses (a name
    already shown is wrapped once more), and only without a stored name it
    shows the submitted content itself. *)
Theorem country_shown_again
    (a : user_action) (d : gmap string pyval) (raw : pystr) (p b : bool) :
  let f := read_form a d in
  let f' := read_form {| raw_text := raw; parse_pressed := p;
                         typed := fun _ => None; submit_pressed := b |}
                      (update_parsed_data f d) in
  let c_name := default (PStr EMPTY) (d !! "country_name") in
  f_country_input f' =
  if truthy c_name
  then PStr (py_str c_name ++ u " (" ++ py_str (f_country_input f) ++ u ")")
  else f_country_input f.
Proof.
  intros f f' c_name. subst f'.
  unfold read_form at 1. unfold text_input, field, update_parsed_data.
  cbn [typed f_country_input].
  repeat (rewrite lookup_insert_eq || rewrite lookup_insert_ne by done).
  done.
Qed.

(** X14: a record under review is never lost: whatever the user does in a
    run, a non-empty record is under review after it. *)
Theorem record_under_review_stays
    (a : user_action) (st : session) (d : gmap string pyval) :
  parsed_data st = Some d -> d ≠ ∅ ->
  exists d', parsed_data (script_run a st).1 = Some d' /\ d' ≠ ∅.
Proof.
  intros Hd Hne.
  destruct (script_run_record a st)
    as [Hrun|[[_ Hrun]|[(data & _ & Hrun)|(f & d0 & Hrun)]]].
  - exists d. by rewrite Hrun.
  - congruence.
  - eexists. split; [done|]. apply normalized_nonempty.
  - eexists. split; [done|]. apply updated_nonempty.
Qed.

(** X15: in every reachable session, a non-empty record under review has
    the fields label, latin_audience, genre and release_type: the review
    form never falls back on its own defaults for them. *)
Theorem reviewed_record_has_normalized_fields (st : session) :
  reachable st ->
  forall d, parsed_data st = Some d -> d ≠ ∅ -> has_normalized_fields d.
Proof.
  induction 1 as [|a st Hreach IH]; [done|].
  intros d Hd Hne.
  destruct (script_run_record a st)
    as [Hrun|[[Hrun _]|[(data & Hret & Hrun)|(f & d0 & Hrun)]]];
    rewrite Hrun in Hd.
  - by apply IH.
  - congruence.
  - injection Hd as <-. by apply normalized_has_fields.
  - injection Hd as <-. apply updated_has_fields.
Qed.

(** X16: only a reported submission changes the generated script: in a run
    whose submit button reports none, the script of the session is the one
    it had, also when a new text was parsed in that run. *)
Theorem script_kept_without_submission (a : user_action) (st : session) :
  (forall disabled, form_submit_button disabled (submit_pressed a) = false) ->
  generated_script (script_run a st).1 = generated_script st.
Proof.
  intros Hnone. unfold script_run.
  destruct (truthy GOOGLE_API_KEY); [|done]. simpl.
  set (st0 := match parsed_data st with Some _ => st | None => _ end).
  assert (generated_script st0 = generated_script st) as Hs0.
  { subst st0. by destruct (parsed_data st). }
  set (r1 := if parse_pressed a then parse_button (raw_text a) st0 else (st0, [])).
  assert (generated_script r1.1 = generated_script st) as Hs1.
  { subst r1. destruct (parse_pressed a); [|done].
    by rewrite parse_button_script. }
  destruct r1 as [st1 shown1]. simpl in Hs1.
  assert (review_section a st1 = (st1, (review_section a st1).2)) as Hrev.
  { unfold review_section. destruct (parsed_data st1); [|done].
    case_bool_decide; [done|].
    destruct (check_isrc _) as [isrc_valid shown]. by rewrite Hnone. }
  rewrite Hrev. done.
Qed.

End FlowMore.

(** ** The flow on the concrete environment, further *)

Section FlowMoreExamples.
#[local] Existing Instance Sample.unicode.
#[local] Existing Instance Sample.pycountry.
#[local] Existing Instance Sample.collaborators.
#[local] Existing Instance Sample.framework.

(** The first parse of a session. *)
Lemma successful_parse_stores_normalized_record_witness :
  let raw := u "a new song" in
  (raw ≠ EMPTY /\
   (response_text ← generate_content (prompt raw);
    json_loads (clean_json_response response_text)) = Return ∅ /\
   (∅ : gmap string pyval) !! "release_type" ≠ Some PNone) /\
  parse_button raw Sample.fresh
  = ({| parsed_data := Some (apply_business_logic ∅).2;
        generated_script := None |},
     [StSuccess (u "Parsing complete!")]).
Proof.
  intros raw.
  assert (raw ≠ EMPTY) as H1 by discriminate.
  assert ((response_text ← generate_content (prompt raw);
           json_loads (clean_json_response response_text)) = Return ∅) as H2
    by (vm_compute; reflexivity).
  assert ((∅ : gmap string pyval) !! "release_type" ≠ Some PNone) as H3
    by discriminate.
  split; [done|].
  exact (successful_parse_stores_normalized_record raw Sample.fresh ∅ H1 H2 H3).
Defined.

(** A malformed ISRC is submitted for the record of the first parse. *)
Lemma record_under_review_stays_witness :
  let st1 := (script_run (Sample.paste (u "a new song")) Sample.fresh).1 in
  let d := default ∅ (parsed_data st1) in
  (parsed_data st1 = Some d /\ d ≠ ∅) /\
  exists d',
    parsed_data (script_run (Sample.submit_isrc (u "12345")) st1).1 = Some d'
    /\ d' ≠ ∅.
Proof.
  intros st1 d.
  assert (parsed_data st1 = Some d) as Hd by (vm_compute; reflexivity).
  assert (d ≠ ∅) as Hne.
  { intros Hempty. assert (d !! "label" = None) as Hl
      by (rewrite Hempty; apply lookup_empty).
    vm_compute in Hl. discriminate Hl. }
  split; [done|].
  exact (record_under_review_stays (Sample.submit_isrc (u "12345")) st1 d Hd Hne).
Defined.

(** The record after an edit of the first parse. *)
Lemma reviewed_record_has_normalized_fields_witness :
  let st1 := (script_run (Sample.paste (u "a new song")) Sample.fresh).1 in
  let st2 := (script_run (Sample.submit_isrc (u "USRC17607839")) st1).1 in
  let d := default ∅ (parsed_data st2) in
  (reachable st2 /\ parsed_data st2 = Some d /\ d ≠ ∅) /\
  has_normalized_fields d.
Proof.
  intros st1 st2 d.
  assert (reachable st2) as Hreach
    by (do 2 apply reachable_run; apply reachable_fresh).
  assert (parsed_data st2 = Some d) as Hd by (vm_compute; reflexivity).
  assert (d ≠ ∅) as Hne.
  { intros Hempty. assert (d !! "label" = None) as Hl
      by (rewrite Hempty; apply lookup_empty).
    vm_compute in Hl. discriminate Hl. }
  split; [done|].
  exact (reviewed_record_has_normalized_fields st2 Hreach d Hd Hne).
Defined.

(** A new text is parsed while an older script is on the page. *)
Lemma script_kept_without_submission_witness :
  let a := Sample.paste (u "another song") in
  let st := {| parsed_data := Some Sample.cumbia_record;
               generated_script := Some (u "console.log(1)") |} in
  (forall disabled, form_submit_button disabled (submit_pressed a) = false) /\
  generated_script (script_run a st).1 = Some (u "console.log(1)").
Proof.
  intros a st.
  assert (forall disabled, form_submit_button disabled (submit_pressed a) = false)
    as H1 by done.
  split; [done|].
  exact (script_kept_without_submission a st H1).
Defined.

(** The country box after two submissions of an untouched form: the name
    is wrapped twice. *)
Example country_box_nests :
  let d : gmap string pyval :=
    <["isrc" := PStr (u "USRC17607839")]>
    (<["country_code" := PStr (u "US")]>
    (<["country_name" := PStr (u "United States")]> ∅)) in
  let quiet := {| raw_text := EMPTY; parse_pressed := false;
                  typed := fun _ => None; submit_pressed := true |} in
  let st := {| parsed_data := Some d; generated_script := None |} in
  let st1 := (script_run quiet st).1 in
  let st2 := (script_run quiet st1).1 in
  (parsed_data st1 ≫= lookup "country_code")
    = Some (PStr (u "United States (US)")) /\
  (parsed_data st2 ≫= lookup "country_code")
    = Some (PStr (u "United States (United States (US))")).
Proof. vm_compute. split; reflexivity. Qed.

End FlowMoreExamples.
